(** * AIDA: natural language to SQL.

    A shallow embedding of the web client (query form, upload component,
    page controller, results view) and of the transformation pipeline
    (intent resolver, query validator, SQL compiler), with the properties
    the specification states about them. *)

From Stdlib Require Import ZArith NArith Ascii List Bool Lia DecimalString.
From stdpp Require Import base option list gmap strings.

(** * JavaScript strings

    A JavaScript string is a sequence of UTF-16 code units.  The client code
    only compares code units, so a string is a list of numbers. *)
Module Js.

Abbreviation jsstring := (list N).

(** A string literal of the source (all of them are ASCII). *)
Fixpoint lit (s : string) : jsstring :=
  match s with
  | EmptyString => []
  | String c s' => N_of_ascii c :: lit s'
  end.

(** ToBoolean on a string: only the empty string is falsy. *)
Definition truthy (s : jsstring) : bool :=
  match s with [] => false | _ :: _ => true end.

(** WhiteSpace and LineTerminator code points of ECMAScript, the ones
    [String.prototype.trim] strips: TAB, LF, VT, FF, CR, SP, NBSP, the
    Zs category and LS, PS, ZWNBSP. *)
Definition isWhiteSpace (c : N) : bool :=
  ((9 <=? c) && (c <=? 13) || (c =? 32) || (c =? 160) || (c =? 5760)
   || (8192 <=? c) && (c <=? 8202) || (c =? 8232) || (c =? 8233)
   || (c =? 8239) || (c =? 8287) || (c =? 12288) || (c =? 65279))%N.

Fixpoint trimStart (s : jsstring) : jsstring :=
  match s with
  | [] => []
  | c :: s' => if isWhiteSpace c then trimStart s' else s
  end.

Definition trimEnd (s : jsstring) : jsstring := reverse (trimStart (reverse s)).

(** [String.prototype.trim] *)
Definition trim (s : jsstring) : jsstring := trimEnd (trimStart s).

(** [String.prototype.endsWith] with the default end position. *)
Definition endsWith (s suffix : jsstring) : bool :=
  (length suffix <=? length s)%nat
  && bool_decide (drop (length s - length suffix) s = suffix).

(** [String.prototype.includes] *)
Fixpoint startsWith (s prefix : jsstring) : bool :=
  match prefix, s with
  | [], _ => true
  | p :: prefix', c :: s' => (p =? c)%N && startsWith s' prefix'
  | _ :: _, [] => false
  end.

Fixpoint includes (s sub : jsstring) : bool :=
  startsWith s sub || match s with [] => false | _ :: s' => includes s' sub end.

(** A value caught by [catch]: an [Error] instance with its message, or
    anything else. *)
Inductive Thrown :=
| ErrorInstance (message : jsstring)
| OtherValue.

(** [error instanceof Error ? error.message : fallback] *)
Definition messageOr (fallback : jsstring) (reason : Thrown) : jsstring :=
  match reason with
  | ErrorInstance m => m
  | OtherValue => fallback
  end.

End Js.

(** * The query form: components/QueryInterface.tsx *)
Module QueryInterface.
Import Js.

(** What one run of a handler does to its environment. *)
Inductive effect :=
| PreventDefault
| OnSubmit (question : jsstring)
| SetQuestion (question : jsstring).

(** [handleSubmit]; [question] is the component state and [loading] the
    prop at the time the form is submitted. *)
Definition handleSubmit (question : jsstring) (loading : bool) : list effect :=
  PreventDefault ::
  (if truthy (trim question) && negb loading
   then [OnSubmit (trim question)]
   else []).

Definition handleExampleClick (example : jsstring) : list effect :=
  [SetQuestion example].

(** The [disabled] attribute of the submit button. *)
Definition submitDisabled (question : jsstring) (loading : bool) : bool :=
  loading || negb (truthy (trim question)).

End QueryInterface.

(** * The upload component: FileUpload *)
Module FileUpload.
Import Js.

Record File := { name : jsstring; size : N }.

Inductive StatusType := success | error.

Record UploadStatus := { type : option StatusType; message : jsstring }.

(** How the promise returned by the [onUpload] prop settles, if it does:
    the prop is any function of the caller, and [await] never resumes on a
    promise that stays pending. *)
Inductive Settled :=
| Fulfilled
| Rejected (reason : Thrown)
| Pending.

Inductive effect :=
| SetUploadStatus (s : UploadStatus)
| OnUpload (file : File).

Definition formatMessage : jsstring :=
  lit "Please select a SQLite database file (.sqlite or .db)".

(** [handleFileSelect]; [onUpload] tells how the callback settles on each
    file. *)
Definition handleFileSelect (onUpload : File -> Settled) (file : File)
  : list effect :=
  if negb (endsWith (name file) (lit ".sqlite"))
     && negb (endsWith (name file) (lit ".db"))
  then [SetUploadStatus {| type := Some error; message := formatMessage |}]
  else
    SetUploadStatus {| type := None; message := [] |} ::
    OnUpload file ::
    match onUpload file with
    | Fulfilled =>
        [SetUploadStatus
           {| type := Some success;
              message := lit "Successfully uploaded " ++ name file |}]
    | Rejected reason =>
        [SetUploadStatus
           {| type := Some error;
              message := messageOr (lit "Upload failed") reason |}]
    | Pending => []
    end.

(** [handleFileInputChange] and [handleDrop]: the first file of the list,
    when there is one, goes to [handleFileSelect]. *)
Definition handleFiles (onUpload : File -> Settled) (files : list File)
  : list effect :=
  match files with
  | file :: _ => handleFileSelect onUpload file
  | [] => []
  end.

(** The upload status the component ends with. *)
Definition finalStatus (init : UploadStatus) (tr : list effect) : UploadStatus :=
  fold_left (fun st e => match e with SetUploadStatus s => s | OnUpload _ => st end)
            tr init.

End FileUpload.

(** * The API client: lib/api.ts *)
Module Api.
Import Js.

(** A value of type [any] that arrived as JSON. *)
#[warnings="-register-all"]
Inductive Json :=
| JNull
| JBool (b : bool)
| JNumber (n : Z)
| JString (s : jsstring)
| JArray (items : list Json)
| JObject (fields : list (jsstring * Json)).

(** ToBoolean *)
Definition truthy (v : Json) : bool :=
  match v with
  | JNull => false
  | JBool b => b
  | JNumber n => negb (n =? 0)%Z
  | JString s => Js.truthy s
  | JArray _ | JObject _ => true
  end.

(** [Object.keys(v).length] *)
Definition objectKeysLength (v : Json) : nat :=
  match v with
  | JNull | JBool _ | JNumber _ => 0
  | JString s => length s
  | JArray items => length items
  | JObject fields => length fields
  end.

(** The [timeout] of the axios instance, in milliseconds. *)
Definition timeout : Z := 60000.

Record QueryRequest := { request_question : jsstring }.

(** [QueryResponse]; a field marked [?] in the source is an [option]. *)
Record QueryResponse := {
  success : bool;
  question : jsstring;
  semantic_ir : option Json;
  canonical_ir : option Json;
  sql : option jsstring;
  parameters : option Json;
  results : option (list Json);
  execution_time_ms : Z;
  error : option jsstring
}.

(** How the promise of [executeQuery] settles: with the body of the
    response, or rejected (a status outside 2xx, no connection, the
    timeout).  [elapsed_ms] is the time the request took until then; the
    client has no clock and never reads it. *)
Inductive Outcome :=
| Fulfilled (data : QueryResponse)
| Rejected (reason : Thrown).

Record Settled := { elapsed_ms : Z; outcome : Outcome }.

End Api.

(** * The page controller: app/page.tsx *)
Module Page.
Import Js Api.

Inductive effect :=
| SetLoadingQuery (b : bool)
| SetQueryResult (r : option QueryResponse)
| ConsoleError (reason : Thrown).

(** The result the [catch] branch of [handleQuerySubmit] builds. *)
Definition failureResult (question : jsstring) (reason : Thrown) : QueryResponse :=
  {| success := false;
     question := question;
     semantic_ir := None;
     canonical_ir := None;
     sql := None;
     parameters := None;
     results := None;
     execution_time_ms := 0;
     error := Some (messageOr (lit "Query failed") reason) |}.

(** [handleQuerySubmit] *)
Definition handleQuerySubmit (executeQuery : QueryRequest -> Settled)
    (question : jsstring) : list effect :=
  SetLoadingQuery true ::
  SetQueryResult None ::
  match outcome (executeQuery {| request_question := question |}) with
  | Fulfilled result => [SetQueryResult (Some result)]
  | Rejected reason =>
      [ConsoleError reason; SetQueryResult (Some (failureResult question reason))]
  end
  ++ [SetLoadingQuery false].

(** The [queryResult] state after a run, the prop of [ResultsDisplay]. *)
Definition queryResultAfter (init : option QueryResponse) (tr : list effect)
  : option QueryResponse :=
  fold_left (fun st e => match e with SetQueryResult r => r | _ => st end) tr init.

(** A request that runs into the timeout of the client: the promise is
    rejected after [timeout] milliseconds. *)
Definition timedOut (_ : QueryRequest) : Settled :=
  {| elapsed_ms := timeout;
     outcome := Rejected (ErrorInstance (lit "timeout of 60000ms exceeded")) |}.


(** A result whose [execution_time_ms] is the time the request took. *)
Definition carries_elapsed_time (s : Settled) (r : QueryResponse) : Prop :=
  execution_time_ms r = elapsed_ms s.

End Page.

(** * The results view: components/ResultsDisplay.tsx *)
Module ResultsDisplay.
Import Js Api.

(** The boxes of the pipeline steps. *)
Inductive Panel :=
| SemanticAnalysis (ir : Json)
| BusinessLogic (ir : Json)
| GeneratedSQL (sql : jsstring) (parameters : option Json).

Inductive Rows :=
| ResultsTable (rows : list Json)
| NoResultsFound.

(** What the component returns. *)
Inductive View :=
| Nothing
| QueryFailed (error : option jsstring) (execution_time_ms : Z)
| QueryResults (execution_time_ms : Z) (rows : Rows) (panels : list Panel).

(** [cond && <element>] *)
Definition when {A} (cond : bool) (x : A) : list A := if cond then [x] else [].

Definition rowsView (results : option (list Json)) : Rows :=
  match results with
  | Some (r :: rs) => ResultsTable (r :: rs)
  | _ => NoResultsFound
  end.

(** The boxes under the results; an artifact that is missing or falsy gets
    no box. *)
Definition panelsView (result : QueryResponse) : list Panel :=
  match semantic_ir result with
  | Some ir => when (truthy ir) (SemanticAnalysis ir)
  | None => []
  end ++
  match canonical_ir result with
  | Some ir => when (truthy ir) (BusinessLogic ir)
  | None => []
  end ++
  match sql result with
  | Some text =>
      when (Js.truthy text)
        (GeneratedSQL text
           match parameters result with
           | Some ps =>
               if truthy ps && (0 <? objectKeysLength ps)%nat then Some ps else None
           | None => None
           end)
  | None => []
  end.

Definition ResultsDisplay (result : option QueryResponse) : View :=
  match result with
  | None => Nothing
  | Some result =>
      if negb (success result)
      then QueryFailed (error result) (execution_time_ms result)
      else QueryResults (execution_time_ms result) (rowsView (results result))
                        (panelsView result)
  end.

End ResultsDisplay.

(** * The form over a run of events: components/QueryInterface.tsx *)
Module QueryForm.
Import Js QueryInterface.

(** What the user does to the form: typing into the text area
    ([onChange]), clicking an example, submitting; [loading] is the prop at
    the time of the submit. *)
Inductive event :=
| Change (value : jsstring)
| ExampleClick (example : jsstring)
| Submit (loading : bool).

Definition handle (question : jsstring) (ev : event) : list effect :=
  match ev with
  | Change value => [SetQuestion value]
  | ExampleClick example => handleExampleClick example
  | Submit loading => handleSubmit question loading
  end.

(** The [question] state after an effect. *)
Definition step (question : jsstring) (e : effect) : jsstring :=
  match e with
  | SetQuestion value => value
  | PreventDefault | OnSubmit _ => question
  end.

(** The state after the events and what they did, from the state
    [question]. *)
Fixpoint run (question : jsstring) (evs : list event) : jsstring * list effect :=
  match evs with
  | [] => (question, [])
  | ev :: evs' =>
      let tr := handle question ev in
      let (question', tr') := run (fold_left step tr question) evs' in
      (question', tr ++ tr')
  end.

(** [useState('')] *)
Definition initial : jsstring := [].

(** The texts the events put into the text area, in order, and the text
    they leave in it. *)
Definition texts (evs : list event) : list jsstring :=
  omap (fun ev => match ev with
                  | Change value => Some value
                  | ExampleClick example => Some example
                  | Submit _ => None
                  end) evs.

Definition textAfter (question : jsstring) (evs : list event) : jsstring :=
  default question (last (texts evs)).

End QueryForm.

(** * Dragging and dropping: FileUpload *)
Module FileDrop.
Import Js FileUpload.

Inductive effect :=
| PreventDefault
| StopPropagation
| SetDragActive (b : bool)
| Select (e : FileUpload.effect)
| InputClick.

(** [handleFileInputChange]; [files] is [e.target.files], which may be
    null. *)
Definition handleFileInputChange (onUpload : File -> Settled)
    (files : option (list File)) : list effect :=
  Select <$> handleFiles onUpload (default [] files).

(** [handleDrag]; [type] is [e.type]. *)
Definition handleDrag (type : jsstring) : list effect :=
  PreventDefault :: StopPropagation ::
  (if bool_decide (type = lit "dragenter") || bool_decide (type = lit "dragover")
   then [SetDragActive true]
   else if bool_decide (type = lit "dragleave")
        then [SetDragActive false]
        else []).

(** [handleDrop]; [files] is [e.dataTransfer.files]. *)
Definition handleDrop (onUpload : File -> Settled)
    (files : option (list File)) : list effect :=
  PreventDefault :: StopPropagation :: SetDragActive false ::
  (Select <$> handleFiles onUpload (default [] files)).

(** [handleClick]; [mounted] tells whether [fileInputRef.current] is set. *)
Definition handleClick (mounted : bool) : list effect :=
  if mounted then [InputClick] else [].

(** The state of the component. *)
Record State := { dragActive : bool; uploadStatus : UploadStatus }.

(** [useState(false)], [useState({ type: null, message: '' })] *)
Definition initial : State :=
  {| dragActive := false; uploadStatus := {| type := None; message := [] |} |}.

Definition step (st : State) (e : effect) : State :=
  match e with
  | SetDragActive b => {| dragActive := b; uploadStatus := uploadStatus st |}
  | Select (SetUploadStatus s) => {| dragActive := dragActive st; uploadStatus := s |}
  | Select (OnUpload _) | PreventDefault | StopPropagation | InputClick => st
  end.

(** What the user does to the drop zone. *)
Inductive event :=
| Drag (type : jsstring)
| Drop (files : option (list File))
| InputChange (files : option (list File)).

Definition handle (onUpload : File -> Settled) (ev : event) : list effect :=
  match ev with
  | Drag type => handleDrag type
  | Drop files => handleDrop onUpload files
  | InputChange files => handleFileInputChange onUpload files
  end.

Definition run (onUpload : File -> Settled) (st : State) (evs : list event) : State :=
  fold_left (fun st ev => fold_left step (handle onUpload ev) st) evs st.

(** A file whose name passes the check of [handleFileSelect]. *)
Definition accepted (file : File) : bool :=
  endsWith (name file) (lit ".sqlite") || endsWith (name file) (lit ".db").

(** The calls of [onUpload] in a trace. *)
Definition uploads (tr : list effect) : list File :=
  omap (fun e => match e with Select (OnUpload f) => Some f | _ => None end) tr.

(** The files the events hand to [handleFileSelect], in order. *)
Definition selected (evs : list event) : list File :=
  omap (fun ev => match ev with
                  | Drop files | InputChange files => files ≫= head
                  | Drag _ => None
                  end) evs.

(** The status box under the drop zone: nothing while the type is null. *)
Definition statusBox (s : UploadStatus) : option (StatusType * jsstring) :=
  match type s with
  | Some t => Some (t, message s)
  | None => None
  end.

End FileDrop.

(** * The calls of the API client: lib/api.ts *)
Module ApiClient.
Import Js Api.

(** How a promise of the client settles; the axios instance has a timeout,
    so every request settles. *)
Inductive Promise (A : Type) :=
| Resolved (a : A)
| Failed (reason : Thrown).
Arguments Resolved {A} a.
Arguments Failed {A} reason.

Module ColumnInfo.
Record t := {
  name : jsstring;
  type : jsstring;
  nullable : bool;
  primary_key : bool;
  default_value : option jsstring
}.
End ColumnInfo.

Module TableInfo.
Record t := {
  name : jsstring;
  columns : list ColumnInfo.t;
  row_count : option Z
}.
End TableInfo.

(** [tables] is a [Record<string, TableInfo>]: its entries, in the order
    [Object.values] enumerates them. *)
Module SchemaResponse.
Record t := {
  success : bool;
  tables : list (jsstring * TableInfo.t);
  total_tables : Z;
  database_path : option jsstring;
  error : option jsstring
}.
End SchemaResponse.

Module UploadResponse.
Record t := {
  success : bool;
  message : jsstring;
  file_path : jsstring;
  tables : list jsstring;
  table_count : Z
}.
End UploadResponse.

Module Example.
Record t := { question : jsstring; description : jsstring }.
End Example.

Module ExampleResponse.
Record t := { examples : list Example.t }.
End ExampleResponse.

Inductive Method := GET | POST.

Inductive Body :=
| NoBody
| JsonBody (v : Json)
| FormData (fields : list (jsstring * FileUpload.File)).

(** What a call hands to the axios instance; [contentType] is the header
    the call sets itself, over the default of the instance. *)
Record Request := {
  method : Method;
  url : jsstring;
  params : list (jsstring * jsstring);
  body : Body;
  contentType : option jsstring
}.

(** The axios instance [api], one field for each type of response; the
    interceptors log and pass responses and errors on as they are. *)
Record Instance := {
  postQuery : Request -> Settled;
  getSchemaData : Request -> Promise SchemaResponse.t;
  postUpload : Request -> Promise UploadResponse.t;
  getExamplesData : Request -> Promise ExampleResponse.t
}.

Definition queryRequest (request : QueryRequest) : Request :=
  {| method := POST; url := lit "/query"; params := [];
     body := JsonBody (JObject [(lit "question", JString (request_question request))]);
     contentType := None |}.

(** [executeQuery] *)
Definition executeQuery (api : Instance) (request : QueryRequest) : Settled :=
  postQuery api (queryRequest request).

Definition schemaRequest (databasePath : option jsstring) : Request :=
  {| method := GET; url := lit "/schema";
     params := match databasePath with
               | Some path =>
                   if Js.truthy path then [(lit "database_path", path)] else []
               | None => []
               end;
     body := NoBody; contentType := None |}.

(** [getSchema] *)
Definition getSchema (api : Instance) (databasePath : option jsstring)
  : Promise SchemaResponse.t :=
  getSchemaData api (schemaRequest databasePath).

Definition uploadRequest (file : FileUpload.File) : Request :=
  {| method := POST; url := lit "/upload"; params := [];
     body := FormData [(lit "file", file)];
     contentType := Some (lit "multipart/form-data") |}.

(** [uploadDatabase] *)
Definition uploadDatabase (api : Instance) (file : FileUpload.File)
  : Promise UploadResponse.t :=
  postUpload api (uploadRequest file).

Definition examplesRequest : Request :=
  {| method := GET; url := lit "/examples"; params := []; body := NoBody;
     contentType := None |}.

(** [getExamples] *)
Definition getExamples (api : Instance) : Promise ExampleResponse.t :=
  getExamplesData api examplesRequest.

End ApiClient.

(** * The schema panel: SchemaDisplay *)
Module SchemaDisplay.
Import Js ApiClient.

Inductive Constraint :=
| PK
| NOT_NULL
| DEFAULT (value : jsstring).

(** A row of the column table. *)
Record ColumnRow := {
  keyIcon : bool;
  columnName : jsstring;
  columnType : jsstring;
  constraints : list Constraint
}.

(** The box of a table. *)
Record TableCard := {
  tableName : jsstring;
  rowCount : option Z;
  columnRows : list ColumnRow
}.

(** What the component returns. *)
Inductive View :=
| LoadingSkeleton
| NoSchema
| Schema (totalTables : Z) (databasePath : option jsstring) (cards : list TableCard).

Definition columnRow (column : ColumnInfo.t) : ColumnRow :=
  {| keyIcon := ColumnInfo.primary_key column;
     columnName := ColumnInfo.name column;
     columnType := ColumnInfo.type column;
     constraints :=
       ResultsDisplay.when (ColumnInfo.primary_key column) PK
       ++ ResultsDisplay.when (negb (ColumnInfo.nullable column)) NOT_NULL
       ++ match ColumnInfo.default_value column with
          | Some v => ResultsDisplay.when (truthy v) (DEFAULT v)
          | None => []
          end |}.

Definition tableCard (table : TableInfo.t) : TableCard :=
  {| tableName := TableInfo.name table;
     rowCount := TableInfo.row_count table;
     columnRows := columnRow <$> TableInfo.columns table |}.

Definition SchemaDisplay (schema : option SchemaResponse.t) (loading : bool) : View :=
  if loading then LoadingSkeleton
  else match schema with
       | None => NoSchema
       | Some schema =>
           if (SchemaResponse.total_tables schema =? 0)%Z then NoSchema
           else Schema (SchemaResponse.total_tables schema)
                       (match SchemaResponse.database_path schema with
                        | Some path => if truthy path then Some path else None
                        | None => None
                        end)
                       (tableCard <$> (snd <$> SchemaResponse.tables schema))
       end.

End SchemaDisplay.

(** * The table of the results view: components/ResultsDisplay.tsx *)
Module ResultsTable.
Import Js Api.

(** The key of an array index or of a position in a string. *)
Definition indexKey (i : nat) : jsstring :=
  lit (NilZero.string_of_uint (Nat.to_uint i)).

(** [Object.keys(v)]; [None] is the TypeError on null.  The fields of an
    object are its own properties in enumeration order. *)
Definition objectKeys (v : Json) : option (list jsstring) :=
  match v with
  | JNull => None
  | JBool _ | JNumber _ => Some []
  | JString s => Some (indexKey <$> seq 0 (length s))
  | JArray items => Some (indexKey <$> seq 0 (length items))
  | JObject fields => Some (fst <$> fields)
  end.

(** [Object.values(v)] *)
Definition objectValues (v : Json) : option (list Json) :=
  match v with
  | JNull => None
  | JBool _ | JNumber _ => Some []
  | JString s => Some ((fun c => JString [c]) <$> s)
  | JArray items => Some items
  | JObject fields => Some (snd <$> fields)
  end.

(** A cell: the text 'null', or [String(value)] of a value that is not
    null. *)
Inductive Cell :=
| NullText
| StringOf (value : Json).

Definition cell (value : Json) : Cell :=
  match value with
  | JNull => NullText
  | _ => StringOf value
  end.

Record Table := { header : list jsstring; body : list (list Cell) }.

(** The rows of the body; the first row that is null throws. *)
Fixpoint bodyRows (rows : list Json) : option (list (list Cell)) :=
  match rows with
  | [] => Some []
  | row :: rows' =>
      match objectValues row, bodyRows rows' with
      | Some values, Some rest => Some ((cell <$> values) :: rest)
      | _, _ => None
      end
  end.

(** The table of a result with rows: the header from the keys of the first
    row, a line for each row; [None] when rendering throws, as
    [Object.keys(results[0])] does on no row at all. *)
Definition renderTable (rows : list Json) : option Table :=
  match rows with
  | [] => None
  | first :: _ =>
      match objectKeys first, bodyRows rows with
      | Some keys, Some lines => Some {| header := keys; body := lines |}
      | _, _ => None
      end
  end.


End ResultsTable.

(** * The results view on the screen: components/ResultsDisplay.tsx

    The component as a whole, the view with its table rendered. *)
Module ResultsScreen.
Import Js Api.

Inductive Screen :=
| Empty
| FailureBox (error : option jsstring) (execution_time_ms : Z)
| ResultsBox (execution_time_ms : Z) (table : option ResultsTable.Table)
             (panels : list ResultsDisplay.Panel).

(** The boxes [ResultsDisplay] puts on the screen for a result: nothing for
    no result, the red box of a failure, or the results with their table
    (no table under 'No results found') and the boxes of the pipeline
    steps; [None] when rendering throws, and React shows nothing of the
    component.  (A number 0 in place of an artifact gets no box; React
    prints the 0 of [0 && ...] as text, which is no part of a box.) *)
Definition render (result : option QueryResponse) : option Screen :=
  match ResultsDisplay.ResultsDisplay result with
  | ResultsDisplay.Nothing => Some Empty
  | ResultsDisplay.QueryFailed error time => Some (FailureBox error time)
  | ResultsDisplay.QueryResults time ResultsDisplay.NoResultsFound panels =>
      Some (ResultsBox time None panels)
  | ResultsDisplay.QueryResults time (ResultsDisplay.ResultsTable rows) panels =>
      match ResultsTable.renderTable rows with
      | Some table => Some (ResultsBox time (Some table) panels)
      | None => None
      end
  end.

End ResultsScreen.

(** * The page and its state: app/page.tsx *)
Module Home.
Import Js Api ApiClient.

Module Loading.
Record t := { query : bool; schema : bool; upload : bool }.
End Loading.

Record State := {
  queryResult : option QueryResponse;
  schema : option SchemaResponse.t;
  examples : list jsstring;
  loading : Loading.t
}.

(** The four [useState] calls. *)
Definition initial : State :=
  {| queryResult := None; schema := None; examples := [];
     loading := {| Loading.query := false; Loading.schema := false;
                   Loading.upload := false |} |}.

(** A call of the API client the page waits for. *)
Inductive ApiCall :=
| GetSchema (databasePath : option jsstring)
| UploadDatabase (file : FileUpload.File)
| GetExamples.

Definition requestOf (c : ApiCall) : Request :=
  match c with
  | GetSchema databasePath => schemaRequest databasePath
  | UploadDatabase file => uploadRequest file
  | GetExamples => examplesRequest
  end.

(** What a handler of the page does; the effects of [handleQuerySubmit]
    are those of [Page]. *)
Inductive effect :=
| QueryEffect (e : Page.effect)
| SetLoadingSchema (b : bool)
| SetLoadingUpload (b : bool)
| SetSchema (s : SchemaResponse.t)
| SetExamples (questions : list jsstring)
| Await (c : ApiCall).

(** The state after an effect; every [setLoading] spreads the previous
    flags and sets one. *)
Definition step (st : State) (e : effect) : State :=
  match e with
  | QueryEffect (Page.SetLoadingQuery b) =>
      {| queryResult := queryResult st; schema := schema st;
         examples := examples st;
         loading := {| Loading.query := b;
                       Loading.schema := Loading.schema (loading st);
                       Loading.upload := Loading.upload (loading st) |} |}
  | QueryEffect (Page.SetQueryResult r) =>
      {| queryResult := r; schema := schema st; examples := examples st;
         loading := loading st |}
  | QueryEffect (Page.ConsoleError _) => st
  | SetLoadingSchema b =>
      {| queryResult := queryResult st; schema := schema st;
         examples := examples st;
         loading := {| Loading.query := Loading.query (loading st);
                       Loading.schema := b;
                       Loading.upload := Loading.upload (loading st) |} |}
  | SetLoadingUpload b =>
      {| queryResult := queryResult st; schema := schema st;
         examples := examples st;
         loading := {| Loading.query := Loading.query (loading st);
                       Loading.schema := Loading.schema (loading st);
                       Loading.upload := b |} |}
  | SetSchema s =>
      {| queryResult := queryResult st; schema := Some s;
         examples := examples st; loading := loading st |}
  | SetExamples questions =>
      {| queryResult := queryResult st; schema := schema st;
         examples := questions; loading := loading st |}
  | Await _ => st
  end.

Definition run (st : State) (tr : list effect) : State := fold_left step tr st.

(** An async function: what it did and how its promise settles. *)
Definition Async (A : Type) : Type := list effect * Promise A.

Definition emit (e : effect) : Async unit := ([e], Resolved tt).

Definition await {A} (c : ApiCall) (p : Promise A) : Async A := ([Await c], p).

Definition throw {A} (reason : Thrown) : Async A := ([], Failed reason).

Definition bind {A B} (m : Async A) (k : A -> Async B) : Async B :=
  match m with
  | (tr, Resolved a) => let (tr', r) := k a in (tr ++ tr', r)
  | (tr, Failed reason) => (tr, Failed reason)
  end.

Notation "x <- m ;; k" := (bind m (fun x => k))
  (at level 100, m at next level, right associativity).
Notation "m ;; k" := (bind m (fun _ => k))
  (at level 100, right associativity).

(** [try { body } catch (error) { handler }] *)
Definition tryCatch {A} (body : Async A) (handler : Thrown -> Async A) : Async A :=
  match body with
  | (tr, Failed reason) => let (tr', r) := handler reason in (tr ++ tr', r)
  | (tr, Resolved a) => (tr, Resolved a)
  end.

(** [... finally { block }], for a block that only sets state. *)
Definition finally {A} (m : Async A) (block : list effect) : Async A :=
  (fst m ++ block, snd m).

(** [loadInitialData] *)
Definition loadInitialData (api : Instance) : Async unit :=
  finally
    (tryCatch
       (emit (SetLoadingSchema true) ;;
        schemaData <- await (GetSchema None) (getSchema api None) ;;
        emit (SetSchema schemaData) ;;
        exampleData <- await GetExamples (getExamples api) ;;
        emit (SetExamples
                (Example.question <$> ExampleResponse.examples exampleData)))
       (fun error => emit (QueryEffect (Page.ConsoleError error))))
    [SetLoadingSchema false].

(** [handleQuerySubmit], with [executeQuery] of the API client. *)
Definition handleQuerySubmit (api : Instance) (question : jsstring) : Async unit :=
  (QueryEffect <$> Page.handleQuerySubmit (executeQuery api) question, Resolved tt).

(** [handleFileUpload] *)
Definition handleFileUpload (api : Instance) (file : FileUpload.File) : Async unit :=
  finally
    (tryCatch
       (emit (SetLoadingUpload true) ;;
        uploadResult <- await (UploadDatabase file) (uploadDatabase api file) ;;
        newSchema <- await (GetSchema (Some (UploadResponse.file_path uploadResult)))
                           (getSchema api (Some (UploadResponse.file_path uploadResult))) ;;
        emit (SetSchema newSchema) ;;
        emit (QueryEffect (Page.SetQueryResult None)))
       (fun error => emit (QueryEffect (Page.ConsoleError error)) ;; throw error))
    [SetLoadingUpload false].

(** The [onUpload] prop the page gives to the upload component. *)
Definition onUpload (api : Instance) (file : FileUpload.File) : FileUpload.Settled :=
  match snd (handleFileUpload api file) with
  | Resolved _ => FileUpload.Fulfilled
  | Failed reason => FileUpload.Rejected reason
  end.

(** What the page does while the upload component handles [tr]: each call
    of [onUpload] runs [handleFileUpload]. *)
Definition uploadEffects (api : Instance) (tr : list FileUpload.effect) : list effect :=
  tr ≫= (fun e => match e with
                  | FileUpload.OnUpload file => fst (handleFileUpload api file)
                  | FileUpload.SetUploadStatus _ => []
                  end).

(** The calls of the API client in a trace. *)
Definition calls (tr : list effect) : list ApiCall :=
  omap (fun e => match e with Await c => Some c | _ => None end) tr.

(** The props the page hands to its four components, and what two of them
    render from them. *)
Record Rendered := {
  queryInterfaceLoading : bool;
  queryInterfaceExamples : list jsstring;
  resultsDisplay : ResultsDisplay.View;
  fileUploadLoading : bool;
  schemaDisplay : SchemaDisplay.View
}.

Definition render (st : State) : Rendered :=
  {| queryInterfaceLoading := Loading.query (loading st);
     queryInterfaceExamples := examples st;
     resultsDisplay := ResultsDisplay.ResultsDisplay (queryResult st);
     fileUploadLoading := Loading.upload (loading st);
     schemaDisplay := SchemaDisplay.SchemaDisplay (schema st)
                        (Loading.schema (loading st)) |}.

End Home.

(** * A small database and two servers, for examples *)
Module ClientScenario.
Import Js Api ApiClient.

Definition ordersDb : FileUpload.File :=
  {| FileUpload.name := lit "orders.db"; FileUpload.size := 2048 |}.

Definition uploaded : UploadResponse.t :=
  {| UploadResponse.success := true;
     UploadResponse.message := lit "Database uploaded";
     UploadResponse.file_path := lit "uploads/orders.db";
     UploadResponse.tables := [lit "orders"];
     UploadResponse.table_count := 1 |}.

Definition ordersSchema : SchemaResponse.t :=
  {| SchemaResponse.success := true;
     SchemaResponse.tables :=
       [(lit "orders",
         {| TableInfo.name := lit "orders";
            TableInfo.columns :=
              [{| ColumnInfo.name := lit "id"; ColumnInfo.type := lit "INTEGER";
                  ColumnInfo.nullable := false; ColumnInfo.primary_key := true;
                  ColumnInfo.default_value := None |};
               {| ColumnInfo.name := lit "status"; ColumnInfo.type := lit "TEXT";
                  ColumnInfo.nullable := true; ColumnInfo.primary_key := false;
                  ColumnInfo.default_value := Some (lit "'open'") |}];
            TableInfo.row_count := Some 0%Z |})];
     SchemaResponse.total_tables := 1;
     SchemaResponse.database_path := Some (lit "uploads/orders.db");
     SchemaResponse.error := None |}.

Definition exampleList : ExampleResponse.t :=
  {| ExampleResponse.examples :=
       [{| Example.question := lit "Count all orders";
           Example.description := lit "A count" |}] |}.

(** A server that answers every call. *)
Definition working : Instance :=
  {| postQuery := fun _ =>
       {| elapsed_ms := 12;
          outcome := Rejected (ErrorInstance (lit "Request failed with status code 500")) |};
     getSchemaData := fun _ => Resolved ordersSchema;
     postUpload := fun _ => Resolved uploaded;
     getExamplesData := fun _ => Resolved exampleList |}.

(** A server that cannot be reached. *)
Definition unreachable : Instance :=
  {| postQuery := fun _ =>
       {| elapsed_ms := 3; outcome := Rejected (ErrorInstance (lit "Network Error")) |};
     getSchemaData := fun _ => Failed (ErrorInstance (lit "Network Error"));
     postUpload := fun _ => Failed (ErrorInstance (lit "Network Error"));
     getExamplesData := fun _ => Failed (ErrorInstance (lit "Network Error")) |}.

Definition orderRows : list Json :=
  [JObject [(lit "id", JNumber 1); (lit "status", JString (lit "completed"))];
   JObject [(lit "id", JNumber 2); (lit "status", JNull)]].

Definition orderTable : ResultsTable.Table :=
  {| ResultsTable.header := [lit "id"; lit "status"];
     ResultsTable.body :=
       [[ResultsTable.StringOf (JNumber 1);
         ResultsTable.StringOf (JString (lit "completed"))];
        [ResultsTable.StringOf (JNumber 2); ResultsTable.NullText]] |}.


End ClientScenario.

(** * The transformation pipeline

    The resolver, the validator and the compiler are the server side of the
    repository; the client above only sees their results.  They are
    modelled here from the specification, section by section. *)
Module Pipeline.

(** Modelled from the spec: the outcome of a fallible stage,
    [CanonicalQuery | ResolutionError] and the like. *)
Inductive Result (E A : Type) :=
| Ok (a : A)
| Err (e : E).
Arguments Ok {E A} a.
Arguments Err {E A} e.

Definition bind {E A B} (r : Result E A) (k : A -> Result E B) : Result E B :=
  match r with
  | Ok a => k a
  | Err e => Err e
  end.

Notation "x <- r ;; k" := (bind r (fun x => k))
  (at level 100, r at next level, right associativity).

Definition map_err {E E' A} (f : E -> E') (r : Result E A) : Result E' A :=
  match r with
  | Ok a => Ok a
  | Err e => Err (f e)
  end.

(** The stages run over a list stop at the first failure. *)
Fixpoint traverse {E A B} (f : A -> Result E B) (l : list A) : Result E (list B) :=
  match l with
  | [] => Ok []
  | a :: l' => b <- f a ;; bs <- traverse f l' ;; Ok (b :: bs)
  end.

(** ** Data model (section 3) *)

(** Modelled from the spec: a calendar date, the value of a resolved time
    bound ("two bound date parameters"). *)
Record Date := {
  year : Z;
  month : Z;
  day : Z
}.

(** Modelled from the spec: a typed literal value, the payload of a filter
    and of a time bound. *)
Inductive Literal :=
| LNull
| LBool (b : bool)
| LInt (n : Z)
| LText (s : string)
| LDate (d : Date).

(** Modelled from the spec: a column of the SchemaCatalog, "(name, declared
    type, nullable, is-primary-key, default-value)". *)
Record Column := {
  column_name : string;
  declared_type : string;
  nullable : bool;
  primary_key : bool;
  default_value : option string
}.

(** Modelled from the spec: a table of the SchemaCatalog, its ordered
    columns and the optional row-count hint. *)
Record Table := {
  columns : list Column;
  row_count : option N
}.

(** Modelled from the spec: the SchemaCatalog, "mapping from table name"
    to the table's metadata. *)
Abbreviation SchemaCatalog := (gmap string Table).

(** Modelled from the spec: the aggregation whitelist {SUM, COUNT, AVG}. *)
Inductive Aggregation := SUM | COUNT | AVG.

(** Modelled from the spec: the operator whitelist {=, !=, <, <=, >, >=}. *)
Inductive Operator := OpEq | OpNe | OpLt | OpLe | OpGt | OpGe.

(** Modelled from the spec: a resolved filter "(column, operator, typed
    literal value)". *)
Record Filter := {
  filter_column : string;
  filter_operator : Operator;
  filter_value : Literal
}.

(** Modelled from the spec: a default filter of the rule set, "predicate +
    rationale". *)
Record DefaultFilter := {
  predicate : Filter;
  rationale : string
}.

(** Modelled from the spec: a metric mapping, "metric term -> (table,
    column, aggregation-default)"; the default may be missing ("if a metric
    mapping supplies a default aggregation"). *)
Record MetricMapping := {
  metric_table : string;
  metric_column : string;
  aggregation_default : option Aggregation
}.

(** Modelled from the spec: the BusinessRuleSet with its four sections. *)
Record BusinessRuleSet := {
  metric_mappings : gmap string MetricMapping;
  entity_mappings : gmap string string;
  default_filters : gmap string (list DefaultFilter);
  time_columns : gmap string string
}.

(** Modelled from the spec: a raw comparison filter of the intent, "(field
    term, operator, value)". *)
Record RawFilter := {
  field : string;
  operator : string;
  value : Literal
}.

(** Modelled from the spec: the SemanticIntent, every part optional and
    none of it trusted. *)
Record SemanticIntent := {
  metric : option string;
  entity : option string;
  aggregation : option string;
  time_range : option string;
  filters : option (list RawFilter)
}.

(** Modelled from the spec: the projection of a CanonicalQuery, all
    columns for a row-listing query or function and column for an
    aggregate one. *)
Inductive Projection :=
| AllColumns
| Aggregate (fn : Aggregation) (column : string).

(** Modelled from the spec: the resolved time-range filter "(column,
    lower/upper bound, inclusive/exclusive)". *)
Record TimeFilter := {
  time_column : string;
  lower : Literal;
  upper : Literal;
  lower_inclusive : bool;
  upper_inclusive : bool
}.

(** Modelled from the spec: the CanonicalQuery. *)
Record CanonicalQuery := {
  table : string;
  projection : Projection;
  query_filters : list Filter;
  time_filter : option TimeFilter
}.

(** Modelled from the spec: the CompiledStatement, text and ordered
    parameters. *)
Record CompiledStatement := {
  text : string;
  params : list Literal
}.

(** Modelled from the spec: the error taxonomy of section 7. *)
Module ResolutionError.
Inductive t :=
| UnknownMetric
| UnknownEntity
| AmbiguousEntity
| UnknownColumn (term : string)
| UnsupportedOperator
| UnsupportedAggregation
| NoTimeColumn.
End ResolutionError.

Module ValidationError.
Inductive t :=
| UnknownTable
| UnknownColumn
| TypeMismatch
| UnsupportedConstruct.
End ValidationError.

(** Modelled from the spec: what the specification names but leaves open.
    [resolve_period] recognises a time-range description, a relative
    period such as "this month", and gives its lower and upper bound on a
    given day ("only named, not specified"); [open_projection] is the
    projection of an intent with an aggregation and no metric, or with a
    metric and no aggregation at all; [numeric_type] and [literal_fits]
    are the type compatibility the validator checks against a declared
    type. *)
Record Conventions := {
  resolve_period : string -> option (Date -> Literal * Literal);
  open_projection : option Aggregation -> option MetricMapping -> Projection;
  numeric_type : string -> bool;
  literal_fits : string -> Literal -> bool
}.

(** ** Text helpers *)

Definition dquote : ascii := ascii_of_nat 34.

Definition is_dquote (c : ascii) : bool := Ascii.eqb c dquote.

(** ASCII lower case, for the case-insensitive match of field terms. *)
Definition lower_ascii (c : ascii) : ascii :=
  let n := nat_of_ascii c in
  if (65 <=? n)%nat && (n <=? 90)%nat then ascii_of_nat (n + 32) else c.

Fixpoint lowercase (s : string) : string :=
  match s with
  | EmptyString => EmptyString
  | String c s' => String (lower_ascii c) (lowercase s')
  end.

(** [sep.join(parts)] *)
Fixpoint join (sep : string) (parts : list string) : string :=
  match parts with
  | [] => ""
  | [p] => p
  | p :: rest => p +:+ sep +:+ join sep rest
  end.

(** ** Intent Resolver (section 4.1) *)
Section Resolver.
Context (cv : Conventions).

(** Modelled from the spec: the day of the request, which a relative
    period ("this month", "last 7 days") is resolved on. *)
Context (today : Date).

(** Modelled from the spec: "Metric term is looked up in the rule set's
    metric mapping; unknown term -> UnknownMetric". *)
Definition resolve_metric (intent : SemanticIntent) (rules : BusinessRuleSet)
  : Result ResolutionError.t (option MetricMapping) :=
  match metric intent with
  | None => Ok None
  | Some term =>
      match metric_mappings rules !! term with
      | Some m => Ok (Some m)
      | None => Err ResolutionError.UnknownMetric
      end
  end.

(** Modelled from the spec: "Entity term is looked up in the entity
    mapping to a table name; unknown term -> UnknownEntity.  If absent, the
    entity implied by the metric mapping is used; if both absent ->
    AmbiguousEntity". *)
Definition resolve_entity (intent : SemanticIntent) (rules : BusinessRuleSet)
    (m : option MetricMapping) : Result ResolutionError.t string :=
  match entity intent with
  | Some term =>
      match entity_mappings rules !! term with
      | Some t => Ok t
      | None => Err ResolutionError.UnknownEntity
      end
  | None =>
      match m with
      | Some m => Ok (metric_table m)
      | None => Err ResolutionError.AmbiguousEntity
      end
  end.

(** Modelled from the spec: "Default filters for the resolved table are
    appended to the filter list unconditionally", in rule-set order. *)
Definition table_defaults (rules : BusinessRuleSet) (t : string) : list Filter :=
  predicate <$> default (@nil DefaultFilter) (default_filters rules !! t).

(** Modelled from the spec: "A time-range description, if present, is
    resolved into concrete inclusive/exclusive bound literals using the
    table's designated time column; unresolvable or table-has-no-time-column
    -> NoTimeColumn"; the lower bound is inclusive and the upper one
    exclusive. *)
Definition resolve_time (intent : SemanticIntent) (rules : BusinessRuleSet)
    (t : string) : Result ResolutionError.t (option TimeFilter) :=
  match time_range intent with
  | None => Ok None
  | Some description =>
      match time_columns rules !! t, resolve_period cv description with
      | Some c, Some bounds =>
          Ok (Some {| time_column := c;
                      lower := fst (bounds today); upper := snd (bounds today);
                      lower_inclusive := true; upper_inclusive := false |})
      | _, _ => Err ResolutionError.NoTimeColumn
      end
  end.

(** Modelled from the spec: "field term is matched against column names
    (case-insensitive exact match)"; the first column of the table that
    matches gives the name. *)
Definition match_column (cols : list Column) (term : string) : option string :=
  column_name <$>
    find (fun c => String.eqb (lowercase (column_name c)) (lowercase term)) cols.

(** Modelled from the spec: the operator whitelist. *)
Definition parse_operator (s : string) : option Operator :=
  if String.eqb s "=" then Some OpEq
  else if String.eqb s "!=" then Some OpNe
  else if String.eqb s "<" then Some OpLt
  else if String.eqb s "<=" then Some OpLe
  else if String.eqb s ">" then Some OpGt
  else if String.eqb s ">=" then Some OpGe
  else None.

(** Modelled from the spec: one raw filter, "unmatched ->
    UnknownColumn(term)", then "anything else -> UnsupportedOperator". *)
Definition resolve_filter (cols : list Column) (raw : RawFilter)
  : Result ResolutionError.t Filter :=
  match match_column cols (field raw) with
  | None => Err (ResolutionError.UnknownColumn (field raw))
  | Some c =>
      match parse_operator (operator raw) with
      | None => Err ResolutionError.UnsupportedOperator
      | Some op =>
          Ok {| filter_column := c; filter_operator := op;
                filter_value := value raw |}
      end
  end.

(** The columns the field terms are matched against: those of the resolved
    table in the catalog, none when the catalog lacks the table. *)
Definition table_columns (schema : SchemaCatalog) (t : string) : list Column :=
  match schema !! t with
  | Some info => columns info
  | None => []
  end.

(** Modelled from the spec: "Aggregation keyword, if present, must be one
    of {SUM, COUNT, AVG}; anything else -> UnsupportedAggregation". *)
Definition parse_aggregation (s : string) : option Aggregation :=
  if String.eqb s "SUM" then Some SUM
  else if String.eqb s "COUNT" then Some COUNT
  else if String.eqb s "AVG" then Some AVG
  else None.

Definition resolve_aggregation (intent : SemanticIntent)
  : Result ResolutionError.t (option Aggregation) :=
  match aggregation intent with
  | None => Ok None
  | Some keyword =>
      match parse_aggregation keyword with
      | Some fn => Ok (Some fn)
      | None => Err ResolutionError.UnsupportedAggregation
      end
  end.

(** Modelled from the spec: no metric and no aggregation gives a
    row-listing query; the intent's aggregation applies to the metric's
    column, the mapping's default when the intent has none. *)
Definition resolve_projection (agg : option Aggregation) (m : option MetricMapping)
  : Projection :=
  match m, agg with
  | None, None => AllColumns
  | Some m, Some fn => Aggregate fn (metric_column m)
  | Some m, None =>
      match aggregation_default m with
      | Some fn => Aggregate fn (metric_column m)
      | None => open_projection cv None (Some m)
      end
  | None, Some fn => open_projection cv (Some fn) None
  end.

(** Modelled from the spec: [resolve(intent, rules, schema)], the steps in
    the order section 4.1 lists them; the filter list is the default
    filters followed by the intent's.  The day of the request is the one
    input besides the three of the contract. *)
Definition resolve (intent : SemanticIntent) (rules : BusinessRuleSet)
    (schema : SchemaCatalog) : Result ResolutionError.t CanonicalQuery :=
  m <- resolve_metric intent rules ;;
  t <- resolve_entity intent rules m ;;
  time <- resolve_time intent rules t ;;
  given <- traverse (resolve_filter (table_columns schema t))
                    (default [] (filters intent)) ;;
  agg <- resolve_aggregation intent ;;
  Ok {| table := t;
        projection := resolve_projection agg m;
        query_filters := table_defaults rules t ++ given;
        time_filter := time |}.

End Resolver.

(** ** Query Validator (section 4.2) *)
Section Validator.
Context (cv : Conventions).

Definition find_column (info : Table) (c : string) : option Column :=
  find (fun col => String.eqb (column_name col) c) (columns info).

(** Modelled from the spec: the projected column exists, and "SUM/AVG must
    target a numeric-typed column". *)
Definition validate_projection (info : Table) (p : Projection)
  : Result ValidationError.t unit :=
  match p with
  | AllColumns => Ok tt
  | Aggregate fn c =>
      match find_column info c with
      | None => Err ValidationError.UnknownColumn
      | Some col =>
          match fn with
          | COUNT => Ok tt
          | SUM | AVG =>
              if numeric_type cv (declared_type col) then Ok tt
              else Err ValidationError.TypeMismatch
          end
      end
  end.

(** Modelled from the spec: a filter's column exists and its type is
    compatible with the literal. *)
Definition validate_filter (info : Table) (f : Filter)
  : Result ValidationError.t unit :=
  match find_column info (filter_column f) with
  | None => Err ValidationError.UnknownColumn
  | Some col =>
      if literal_fits cv (declared_type col) (filter_value f) then Ok tt
      else Err ValidationError.TypeMismatch
  end.

Definition validate_time (info : Table) (tf : option TimeFilter)
  : Result ValidationError.t unit :=
  match tf with
  | None => Ok tt
  | Some tf =>
      match find_column info (time_column tf) with
      | None => Err ValidationError.UnknownColumn
      | Some col =>
          if literal_fits cv (declared_type col) (lower tf)
             && literal_fits cv (declared_type col) (upper tf)
          then Ok tt
          else Err ValidationError.TypeMismatch
      end
  end.

(** Modelled from the spec: [validate(q, schema)].  A CanonicalQuery has
    one table, one projection and no nested query, so nothing here yields
    UnsupportedConstruct. *)
Definition validate (q : CanonicalQuery) (schema : SchemaCatalog)
  : Result ValidationError.t CanonicalQuery :=
  match schema !! table q with
  | None => Err ValidationError.UnknownTable
  | Some info =>
      _ <- validate_projection info (projection q) ;;
      _ <- traverse (validate_filter info) (query_filters q) ;;
      _ <- validate_time info (time_filter q) ;;
      Ok q
  end.

End Validator.

(** ** SQL Compiler (section 4.3) *)

(** Modelled from the spec: the "one fixed quoting rule", double-quote
    wrapping with a double quote inside the name doubled. *)
Fixpoint escape (name : string) : string :=
  match name with
  | EmptyString => EmptyString
  | String c name' =>
      if is_dquote c then String dquote (String dquote (escape name'))
      else String c (escape name')
  end.

Definition quote_identifier (name : string) : string :=
  String dquote (escape name +:+ String dquote EmptyString).

Definition aggregation_sql (fn : Aggregation) : string :=
  match fn with SUM => "SUM" | COUNT => "COUNT" | AVG => "AVG" end.

Definition operator_sql (op : Operator) : string :=
  match op with
  | OpEq => "=" | OpNe => "!=" | OpLt => "<" | OpLe => "<=" | OpGt => ">" | OpGe => ">="
  end.

(** Modelled from the spec: "For an aggregate query the projection is
    <AGG>(<column>); for a listing query the projection is *". *)
Definition projection_sql (p : Projection) : string :=
  match p with
  | AllColumns => "*"
  | Aggregate fn c => aggregation_sql fn +:+ "(" +:+ quote_identifier c +:+ ")"
  end.

(** Modelled from the spec: a comparison against a positional
    placeholder. *)
Definition comparison_sql (c : string) (op : string) : string :=
  quote_identifier c +:+ " " +:+ op +:+ " ?".

Definition filter_sql (f : Filter) : string :=
  comparison_sql (filter_column f) (operator_sql (filter_operator f)).

Definition time_sql (tf : TimeFilter) : list string :=
  [comparison_sql (time_column tf) (if lower_inclusive tf then ">=" else ">");
   comparison_sql (time_column tf) (if upper_inclusive tf then "<=" else "<")].

Definition time_params (tf : option TimeFilter) : list Literal :=
  match tf with
  | Some tf => [lower tf; upper tf]
  | None => []
  end.

(** Modelled from the spec: the conditions of the WHERE clause, "filters
    AND time-range". *)
Definition where_conditions (q : CanonicalQuery) : list string :=
  (filter_sql <$> query_filters q)
  ++ match time_filter q with Some tf => time_sql tf | None => [] end.

Definition where_sql (conditions : list string) : string :=
  match conditions with
  | [] => ""
  | _ :: _ => " WHERE " +:+ join " AND " conditions
  end.

(** Modelled from the spec: [compile(q)], "SELECT <projection> FROM
    <table> WHERE <filters AND time-range>", the parameters in placeholder
    order. *)
Definition compile (q : CanonicalQuery) : CompiledStatement :=
  {| text := "SELECT " +:+ projection_sql (projection q) +:+ " FROM "
             +:+ quote_identifier (table q) +:+ where_sql (where_conditions q);
     params := (filter_value <$> query_filters q) ++ time_params (time_filter q) |}.

(** ** The stages in sequence (section 2) *)

Inductive PipelineError :=
| ResolutionFailed (e : ResolutionError.t)
| ValidationFailed (e : ValidationError.t).

(** Modelled from the spec: "each consuming the previous stage's output";
    the CanonicalQuery and the CompiledStatement of a request that passes
    the three stages. *)
Definition run (cv : Conventions) (today : Date) (intent : SemanticIntent)
    (rules : BusinessRuleSet) (schema : SchemaCatalog)
  : Result PipelineError (CanonicalQuery * CompiledStatement) :=
  q <- map_err ResolutionFailed (resolve cv today intent rules schema) ;;
  q' <- map_err ValidationFailed (validate cv q schema) ;;
  Ok (q', compile q').

(** An intent with a metric term, or an entity term, that the rule set has
    no mapping for. *)
Definition unknown_metric (intent : SemanticIntent) (rules : BusinessRuleSet) : Prop :=
  exists term, metric intent = Some term /\ metric_mappings rules !! term = None.

Definition unknown_entity (intent : SemanticIntent) (rules : BusinessRuleSet) : Prop :=
  exists term, entity intent = Some term /\ entity_mappings rules !! term = None.

(** ** Reading a statement text

    A reader of its own for statement texts: a lexer that knows quoted
    identifiers, words, the comparison operators, the placeholder and the
    semicolon, and a parser for the one statement form of section 4.3.  It
    shares nothing with the compiler. *)

Inductive Token :=
| TWord (w : string)
| TName (name : string)
| TStar
| TOpen
| TClose
| TPlaceholder
| TSemicolon
| TOp (op : Operator).

Definition is_space (c : ascii) : bool :=
  let n := nat_of_ascii c in
  ((n =? 32) || (9 <=? n) && (n <=? 13))%nat.

Definition is_quote_mark (c : ascii) : bool := (nat_of_ascii c =? 34)%nat.

(** Letters, digits and the underscore. *)
Definition is_word_char (c : ascii) : bool :=
  let n := nat_of_ascii c in
  ((48 <=? n) && (n <=? 57) || (65 <=? n) && (n <=? 90)
   || (97 <=? n) && (n <=? 122) || (n =? 95))%nat.

Definition snoc (s : string) (c : ascii) : string := s +:+ String c EmptyString.

(** Where the lexer is: between tokens, in a word, in a quoted identifier,
    after a double quote inside one (its end, or the first half of a
    doubled quote), after a character that may start a two-character
    operator. *)
Inductive Mode :=
| Idle
| InWord (w : string)
| InName (name : string)
| NameQuote (name : string)
| AfterLess
| AfterGreater
| AfterBang.

(** A character between tokens: the tokens it completes and the mode it
    leaves; [None] for a character no statement has. *)
Definition idle (c : ascii) : option (list Token * Mode) :=
  if is_space c then Some ([], Idle)
  else if is_quote_mark c then Some ([], InName EmptyString)
  else if is_word_char c then Some ([], InWord (String c EmptyString))
  else if Ascii.eqb c "*" then Some ([TStar], Idle)
  else if Ascii.eqb c "(" then Some ([TOpen], Idle)
  else if Ascii.eqb c ")" then Some ([TClose], Idle)
  else if Ascii.eqb c "?" then Some ([TPlaceholder], Idle)
  else if Ascii.eqb c ";" then Some ([TSemicolon], Idle)
  else if Ascii.eqb c "=" then Some ([TOp OpEq], Idle)
  else if Ascii.eqb c "<" then Some ([], AfterLess)
  else if Ascii.eqb c ">" then Some ([], AfterGreater)
  else if Ascii.eqb c "!" then Some ([], AfterBang)
  else None.

Definition after (t : Token) (r : option (list Token * Mode))
  : option (list Token * Mode) :=
  match r with
  | Some (out, m) => Some (t :: out, m)
  | None => None
  end.

Definition step (m : Mode) (c : ascii) : option (list Token * Mode) :=
  match m with
  | Idle => idle c
  | InWord w =>
      if is_word_char c then Some ([], InWord (snoc w c))
      else after (TWord w) (idle c)
  | InName name =>
      if is_quote_mark c then Some ([], NameQuote name)
      else Some ([], InName (snoc name c))
  | NameQuote name =>
      if is_quote_mark c then Some ([], InName (snoc name c))
      else after (TName name) (idle c)
  | AfterLess =>
      if Ascii.eqb c "=" then Some ([TOp OpLe], Idle)
      else after (TOp OpLt) (idle c)
  | AfterGreater =>
      if Ascii.eqb c "=" then Some ([TOp OpGe], Idle)
      else after (TOp OpGt) (idle c)
  | AfterBang =>
      if Ascii.eqb c "=" then Some ([TOp OpNe], Idle) else None
  end.

(** The end of the text. *)
Definition finish (m : Mode) : option (list Token) :=
  match m with
  | Idle => Some []
  | InWord w => Some [TWord w]
  | InName _ => None
  | NameQuote name => Some [TName name]
  | AfterLess => Some [TOp OpLt]
  | AfterGreater => Some [TOp OpGt]
  | AfterBang => None
  end.

Fixpoint scan (m : Mode) (s : string) : option (list Token) :=
  match s with
  | EmptyString => finish m
  | String c s' =>
      match step m c with
      | Some (out, m') => app out <$> scan m' s'
      | None => None
      end
  end.

(** The tokens of a text; [None] for a text that is no sequence of
    tokens. *)
Definition tokens (s : string) : option (list Token) := scan Idle s.

(** The lexer over a stretch of text: the tokens it completes and the mode
    at the end of the stretch. *)
Fixpoint steps (m : Mode) (s : string) : option (list Token * Mode) :=
  match s with
  | EmptyString => Some ([], m)
  | String c s' =>
      match step m c with
      | Some (out, m') =>
          match steps m' s' with
          | Some (out', m'') => Some (out ++ out', m'')
          | None => None
          end
      | None => None
      end
  end.


Definition is_placeholder (t : Token) : bool :=
  match t with TPlaceholder => true | _ => false end.


Fixpoint count_if {A} (p : A -> bool) (l : list A) : nat :=
  match l with
  | [] => 0
  | x :: l' => (if p x then 1 else 0) + count_if p l'
  end.

(** A statement as the parser reads it: projection, table, and the
    comparisons of the WHERE clause, each a column and an operator against
    a placeholder. *)
Record Statement := {
  stmt_projection : Projection;
  stmt_table : string;
  stmt_conditions : list (string * Operator)
}.

Definition aggregation_of_word (w : string) : option Aggregation :=
  if String.eqb (lowercase w) "sum" then Some SUM
  else if String.eqb (lowercase w) "count" then Some COUNT
  else if String.eqb (lowercase w) "avg" then Some AVG
  else None.

Definition parse_projection (toks : list Token)
  : option (Projection * list Token) :=
  match toks with
  | TStar :: rest => Some (AllColumns, rest)
  | TWord f :: TOpen :: TName c :: TClose :: rest =>
      match aggregation_of_word f with
      | Some fn => Some (Aggregate fn c, rest)
      | None => None
      end
  | _ => None
  end.

(** One or more comparisons with AND between them, up to the end. *)
Fixpoint parse_conditions (toks : list Token) : option (list (string * Operator)) :=
  match toks with
  | TName c :: TOp op :: TPlaceholder :: rest =>
      match rest with
      | [] => Some [(c, op)]
      | TWord w :: rest' =>
          if String.eqb (lowercase w) "and"
          then cons (c, op) <$> parse_conditions rest'
          else None
      | _ => None
      end
  | _ => None
  end.

(** SELECT projection FROM table, then nothing or WHERE and
    comparisons. *)
Definition parse (toks : list Token) : option Statement :=
  match toks with
  | TWord s :: rest =>
      if String.eqb (lowercase s) "select" then
        match parse_projection rest with
        | Some (p, TWord f :: TName t :: rest') =>
            if String.eqb (lowercase f) "from" then
              match rest' with
              | [] => Some {| stmt_projection := p; stmt_table := t;
                              stmt_conditions := [] |}
              | TWord w :: conditions =>
                  if String.eqb (lowercase w) "where" then
                    (fun cs => {| stmt_projection := p; stmt_table := t;
                                  stmt_conditions := cs |})
                      <$> parse_conditions conditions
                  else None
              | _ => None
              end
            else None
        | _ => None
        end
      else None
  | _ => None
  end.

(** The statement a text is, when it is one. *)
Definition read (s : string) : option Statement := tokens s ≫= parse.


(** The comparisons of a query, as a reader expects to find them. *)
Definition comparisons (q : CanonicalQuery) : list (string * Operator) :=
  ((fun f => (filter_column f, filter_operator f)) <$> query_filters q)
  ++ match time_filter q with
     | Some tf =>
         [(time_column tf, if lower_inclusive tf then OpGe else OpGt);
          (time_column tf, if upper_inclusive tf then OpLe else OpLt)]
     | None => []
     end.

(** A condition that reads as the comparison of a column against a
    placeholder. *)
Definition reads_as (cond : string) (c : string * Operator) : Prop :=
  steps Idle cond = Some ([TName c.1; TOp c.2; TPlaceholder], Idle).

(** The tokens of the statement form for a projection, a table and
    comparisons: what a reader is expected to find. *)
Definition projection_tokens (p : Projection) : list Token :=
  match p with
  | AllColumns => [TStar]
  | Aggregate SUM c => [TWord "SUM"; TOpen; TName c; TClose]
  | Aggregate COUNT c => [TWord "COUNT"; TOpen; TName c; TClose]
  | Aggregate AVG c => [TWord "AVG"; TOpen; TName c; TClose]
  end.

Fixpoint condition_tokens (cs : list (string * Operator)) : list Token :=
  match cs with
  | [] => []
  | [(c, op)] => [TName c; TOp op; TPlaceholder]
  | (c, op) :: cs' =>
      TName c :: TOp op :: TPlaceholder :: TWord "AND" :: condition_tokens cs'
  end.

Definition statement_tokens (p : Projection) (t : string)
    (cs : list (string * Operator)) : list Token :=
  TWord "SELECT" :: projection_tokens p
  ++ TWord "FROM" :: TName t
     :: match cs with
        | [] => []
        | _ :: _ => TWord "WHERE" :: condition_tokens cs
        end.

(** The query with every literal value replaced by [v]. *)
Definition with_literals (v : Literal) (q : CanonicalQuery) : CanonicalQuery :=
  {| table := table q;
     projection := projection q;
     query_filters :=
       (fun f => {| filter_column := filter_column f;
                    filter_operator := filter_operator f;
                    filter_value := v |}) <$> query_filters q;
     time_filter :=
       (fun tf => {| time_column := time_column tf; lower := v; upper := v;
                     lower_inclusive := lower_inclusive tf;
                     upper_inclusive := upper_inclusive tf |}) <$> time_filter q |}.


End Pipeline.

(** * The scenarios of section 8

    An orders table, the revenue metric with SUM as its default, the
    completed-orders default filter and created_at as the time column. *)
Module Scenario.
Import Pipeline.

Definition first_of_month (d : Date) : Date :=
  {| year := year d; month := month d; day := 1 |}.

Definition first_of_next_month (d : Date) : Date :=
  if (month d =? 12)%Z then {| year := year d + 1; month := 1; day := 1 |}
  else {| year := year d; month := month d + 1; day := 1 |}.

(** "this month" runs from the first day of the month of the request to
    the first day of the next month. *)
Definition conventions : Conventions :=
  {| resolve_period := fun description =>
       if String.eqb description "this month"
       then Some (fun today => (LDate (first_of_month today),
                                LDate (first_of_next_month today)))
       else None;
     open_projection := fun _ _ => AllColumns;
     numeric_type := fun t => String.eqb t "INTEGER" || String.eqb t "REAL";
     literal_fits := fun t v =>
       match v with
       | LNull => true
       | LBool _ | LInt _ => String.eqb t "INTEGER" || String.eqb t "REAL"
       | LText _ => String.eqb t "TEXT"
       | LDate _ => String.eqb t "TEXT" || String.eqb t "DATE"
       end |}.

Definition column (name type : string) : Column :=
  {| column_name := name; declared_type := type; nullable := true;
     primary_key := false; default_value := None |}.

Definition orders : Table :=
  {| columns := [column "id" "INTEGER"; column "amount" "REAL";
                 column "status" "TEXT"; column "created_at" "DATE"];
     row_count := None |}.

Definition schema : SchemaCatalog := {[ "orders" := orders ]}.

Definition completed : DefaultFilter :=
  {| predicate := {| filter_column := "status"; filter_operator := OpEq;
                     filter_value := LText "completed" |};
     rationale := "only completed orders" |}.

Definition rules : BusinessRuleSet :=
  {| metric_mappings :=
       {[ "revenue" := {| metric_table := "orders"; metric_column := "amount";
                          aggregation_default := Some SUM |} ]};
     entity_mappings := {[ "orders" := "orders" ]};
     default_filters := {[ "orders" := [completed] ]};
     time_columns := {[ "orders" := "created_at" ]} |}.

(** The same rules without the default filter. *)
Definition bare_rules : BusinessRuleSet :=
  {| metric_mappings := metric_mappings rules;
     entity_mappings := entity_mappings rules;
     default_filters := ∅;
     time_columns := time_columns rules |}.

Definition revenue_this_month : SemanticIntent :=
  {| metric := Some "revenue"; entity := None; aggregation := None;
     time_range := Some "this month"; filters := None |}.

Definition may_15 : Date := {| year := 2024; month := 5; day := 15 |}.

Definition june_2 : Date := {| year := 2024; month := 6; day := 2 |}.

Definition list_orders : SemanticIntent :=
  {| metric := None; entity := Some "orders"; aggregation := None;
     time_range := None; filters := None |}.

Definition big_orders : SemanticIntent :=
  {| metric := Some "revenue"; entity := Some "orders"; aggregation := Some "AVG";
     time_range := None;
     filters := Some [ {| field := "Amount"; operator := ">="; value := LInt 100 |} ] |}.

Definition revenue_query : CanonicalQuery :=
  {| table := "orders";
     projection := Aggregate SUM "amount";
     query_filters := [predicate completed];
     time_filter :=
       Some {| time_column := "created_at";
               lower := LDate {| year := 2024; month := 5; day := 1 |};
               upper := LDate {| year := 2024; month := 6; day := 1 |};
               lower_inclusive := true; upper_inclusive := false |} |}.

Definition big_orders_query : CanonicalQuery :=
  {| table := "orders";
     projection := Aggregate AVG "amount";
     query_filters :=
       [predicate completed;
        {| filter_column := "amount"; filter_operator := OpGe;
           filter_value := LInt 100 |}];
     time_filter := None |}.

Definition orders_listing : CanonicalQuery :=
  {| table := "orders"; projection := AllColumns;
     query_filters := [predicate completed]; time_filter := None |}.

End Scenario.

(** * Properties of the client *)
Module ClientFacts.
Import Js.

(** ** trim *)

Lemma trimStart_split (s : jsstring) :
  exists pre, s = pre ++ trimStart s /\ Forall (fun c => isWhiteSpace c = true) pre.
Proof.
  induction s as [|c s IH]; simpl.
  - exists []. split; [reflexivity | constructor].
  - destruct (isWhiteSpace c) eqn:Hc.
    + destruct IH as (pre & Hs & Hpre).
      exists (c :: pre). split.
      * simpl. f_equal. exact Hs.
      * constructor; assumption.
    + exists []. split; [reflexivity | constructor].
Qed.

Lemma trimStart_head (s : jsstring) (c : N) :
  head (trimStart s) = Some c -> isWhiteSpace c = false.
Proof.
  induction s as [|d s IH]; simpl.
  - discriminate.
  - destruct (isWhiteSpace d) eqn:Hd.
    + exact IH.
    + simpl. intros [= <-]. exact Hd.
Qed.

Lemma trimEnd_split (s : jsstring) :
  exists post, s = trimEnd s ++ post /\ Forall (fun c => isWhiteSpace c = true) post.
Proof.
  unfold trimEnd.
  destruct (trimStart_split (reverse s)) as (pre & Hs & Hpre).
  exists (reverse pre). split.
  - rewrite <- reverse_app, <- Hs. symmetry. apply reverse_involutive.
  - apply Forall_reverse. exact Hpre.
Qed.

Lemma trimEnd_last (s : jsstring) (c : N) :
  last (trimEnd s) = Some c -> isWhiteSpace c = false.
Proof.
  unfold trimEnd. rewrite last_reverse. apply trimStart_head.
Qed.

Lemma trimEnd_head (s : jsstring) (c : N) :
  head (trimEnd s) = Some c -> head s = Some c.
Proof.
  destruct (trimEnd_split s) as (post & Hs & _).
  intros Hc. rewrite Hs. rewrite head_app, Hc. reflexivity.
Qed.

(** [trim] cuts white space, and only white space, off both ends. *)
Lemma trim_split (s : jsstring) :
  exists pre post,
    s = pre ++ trim s ++ post
    /\ Forall (fun c => isWhiteSpace c = true) pre
    /\ Forall (fun c => isWhiteSpace c = true) post.
Proof.
  unfold trim.
  destruct (trimStart_split s) as (pre & Hs & Hpre).
  destruct (trimEnd_split (trimStart s)) as (post & Ht & Hpost).
  exists pre, post. split; [|split]; try assumption.
  rewrite <- Ht. exact Hs.
Qed.

Lemma trim_head (s : jsstring) (c : N) :
  head (trim s) = Some c -> isWhiteSpace c = false.
Proof.
  unfold trim. intros Hc. apply trimEnd_head in Hc.
  apply (trimStart_head s). exact Hc.
Qed.

Lemma trim_last (s : jsstring) (c : N) :
  last (trim s) = Some c -> isWhiteSpace c = false.
Proof. unfold trim. apply trimEnd_last. Qed.

Lemma truthy_nonempty (s : jsstring) : truthy s = true <-> s <> [].
Proof. destruct s; simpl; split; congruence. Qed.

(** ** endsWith *)

Lemma endsWith_suffix (s suf : jsstring) :
  endsWith s suf = true <-> suf `suffix_of` s.
Proof.
  unfold endsWith. rewrite andb_true_iff, bool_decide_eq_true, Nat.leb_le.
  split.
  - intros [_ Hd]. exists (take (length s - length suf) s).
    pose proof (take_drop (length s - length suf) s) as Hs.
    rewrite Hd in Hs. symmetry. exact Hs.
  - intros [pre ->]. rewrite length_app. split; [lia|].
    replace (length pre + length suf - length suf) with (length pre) by lia.
    apply drop_app_length.
Qed.

(** ** The query form *)
Section QueryForm.
Import QueryInterface.

Lemma handleSubmit_cases (question : jsstring) (loading : bool) :
  (trim question <> [] /\ loading = false
   /\ handleSubmit question loading = [PreventDefault; OnSubmit (trim question)])
  \/ ((trim question = [] \/ loading = true)
      /\ handleSubmit question loading = [PreventDefault]).
Proof.
  unfold handleSubmit.
  destruct (trim question) as [|c t], loading; simpl; auto.
Qed.

Example handleSubmit_trims :
  handleSubmit (lit "  Count all orders ") false
  = [PreventDefault; OnSubmit (lit "Count all orders")].
Proof. reflexivity. Qed.

Example handleSubmit_blank :
  handleSubmit (9 :: 160 :: 8232 :: lit "  ")%N false = [PreventDefault].
Proof. reflexivity. Qed.

Example handleSubmit_while_loading :
  handleSubmit (lit "Count all orders") true = [PreventDefault].
Proof. reflexivity. Qed.

(** C10: [handleSubmit] calls [onSubmit] exactly when the trimmed question
    is not empty and no query is loading; the argument is the trimmed
    question, which is not empty and neither starts nor ends with white
    space; the submit button is enabled under the same condition. *)
Theorem handleSubmit_onSubmit (question : jsstring) (loading : bool) :
  ((exists a, OnSubmit a ∈ handleSubmit question loading)
   <-> trim question <> [] /\ loading = false)
  /\ (forall a, OnSubmit a ∈ handleSubmit question loading ->
        a = trim question /\ a <> []
        /\ (forall c, head a = Some c -> isWhiteSpace c = false)
        /\ (forall c, last a = Some c -> isWhiteSpace c = false))
  /\ (submitDisabled question loading = false
      <-> trim question <> [] /\ loading = false).
Proof.
  split; [|split].
  - destruct (handleSubmit_cases question loading)
      as [(Ht & Hl & ->) | (Hno & ->)].
    + split; [auto|]. intros _. exists (trim question).
      apply elem_of_cons. right. apply list_elem_of_singleton. reflexivity.
    + split.
      * intros [a Ha]. apply list_elem_of_singleton in Ha. discriminate.
      * intros [Ht Hl]. destruct Hno; congruence.
  - intros a Ha.
    destruct (handleSubmit_cases question loading)
      as [(Ht & Hl & Heq) | (Hno & Heq)]; rewrite Heq in Ha.
    + apply elem_of_cons in Ha as [Ha | Ha]; [discriminate|].
      apply list_elem_of_singleton in Ha. injection Ha as ->.
      split; [reflexivity|]. split; [exact Ht|].
      split; intros c; [apply trim_head | apply trim_last].
    + apply list_elem_of_singleton in Ha. discriminate.
  - unfold submitDisabled. rewrite orb_false_iff, negb_false_iff, truthy_nonempty.
    tauto.
Qed.

End QueryForm.

(** ** The upload component *)
Section Upload.
Import FileUpload.

Lemma handleFileSelect_rejected (onUpload : File -> Settled) (file : File) :
  endsWith (name file) (lit ".sqlite") = false ->
  endsWith (name file) (lit ".db") = false ->
  handleFileSelect onUpload file
  = [SetUploadStatus {| type := Some error; message := formatMessage |}].
Proof. intros H1 H2. unfold handleFileSelect. rewrite H1, H2. reflexivity. Qed.

Lemma handleFileSelect_accepted (onUpload : File -> Settled) (file : File) :
  endsWith (name file) (lit ".sqlite") || endsWith (name file) (lit ".db") = true ->
  exists rest,
    handleFileSelect onUpload file
    = SetUploadStatus {| type := None; message := [] |} :: OnUpload file :: rest
    /\ forall f, OnUpload f ∉ rest.
Proof.
  intros H. unfold handleFileSelect.
  rewrite <- negb_orb, H. simpl.
  destruct (onUpload file); eexists; (split; [reflexivity|]);
    intros f Hf; try apply list_elem_of_singleton in Hf;
    try discriminate; inversion Hf.
Qed.

Example handleFileSelect_csv :
  handleFileSelect (fun _ => Fulfilled) {| name := lit "orders.csv"; size := 10 |}
  = [SetUploadStatus {| type := Some error; message := formatMessage |}].
Proof. reflexivity. Qed.

Example handleFileSelect_upper_case :
  handleFileSelect (fun _ => Fulfilled) {| name := lit "ORDERS.DB"; size := 10 |}
  = [SetUploadStatus {| type := Some error; message := formatMessage |}].
Proof. reflexivity. Qed.

Example handleFileSelect_db :
  handleFileSelect (fun _ => Fulfilled) {| name := lit "orders.db"; size := 10 |}
  = [SetUploadStatus {| type := None; message := [] |};
     OnUpload {| name := lit "orders.db"; size := 10 |};
     SetUploadStatus {| type := Some success;
                        message := lit "Successfully uploaded orders.db" |}].
Proof. reflexivity. Qed.

(** C9: for a file whose name ends in neither ".sqlite" nor ".db",
    [handleFileSelect] only sets the error status that names the two
    formats and [onUpload] is not called; whenever [onUpload] is called, it
    is called on the selected file and the name of that file has one of the
    two endings. *)
Theorem handleFileSelect_extension_check (onUpload : File -> Settled) (file : File) :
  (~ lit ".sqlite" `suffix_of` name file ->
   ~ lit ".db" `suffix_of` name file ->
   handleFileSelect onUpload file
   = [SetUploadStatus {| type := Some error; message := formatMessage |}]
   /\ forall f, OnUpload f ∉ handleFileSelect onUpload file)
  /\ (forall f, OnUpload f ∈ handleFileSelect onUpload file ->
        f = file
        /\ (lit ".sqlite" `suffix_of` name file \/ lit ".db" `suffix_of` name file))
  /\ includes formatMessage (lit ".sqlite") = true
  /\ includes formatMessage (lit ".db") = true.
Proof.
  split; [|split; [|split; reflexivity]].
  - intros H1 H2.
    rewrite <- endsWith_suffix in H1, H2.
    apply not_true_is_false in H1, H2.
    rewrite (handleFileSelect_rejected onUpload file H1 H2).
    split; [reflexivity|].
    intros f Hf. apply list_elem_of_singleton in Hf. discriminate.
  - intros f Hf.
    destruct (endsWith (name file) (lit ".sqlite")) eqn:H1;
      [|destruct (endsWith (name file) (lit ".db")) eqn:H2].
    + destruct (handleFileSelect_accepted onUpload file) as (rest & Heq & Hrest);
        [rewrite H1; reflexivity|].
      rewrite Heq in Hf. rewrite !elem_of_cons in Hf.
      destruct Hf as [Hf | [Hf | Hf]]; try discriminate.
      * injection Hf as ->. split; [reflexivity|].
        left. apply endsWith_suffix. exact H1.
      * destruct (Hrest f Hf).
    + destruct (handleFileSelect_accepted onUpload file) as (rest & Heq & Hrest);
        [rewrite H1, H2; reflexivity|].
      rewrite Heq in Hf. rewrite !elem_of_cons in Hf.
      destruct Hf as [Hf | [Hf | Hf]]; try discriminate.
      * injection Hf as ->. split; [reflexivity|].
        right. apply endsWith_suffix. exact H2.
      * destruct (Hrest f Hf).
    + rewrite (handleFileSelect_rejected onUpload file H1 H2) in Hf.
      apply list_elem_of_singleton in Hf. discriminate.
Qed.

End Upload.

(** ** The page and the results view *)
Section Results.
Import Api Page ResultsDisplay.

Lemma handleQuerySubmit_fulfilled executeQuery question data init :
  outcome (executeQuery {| request_question := question |}) = Fulfilled data ->
  queryResultAfter init (handleQuerySubmit executeQuery question) = Some data.
Proof. intros H. unfold handleQuerySubmit. rewrite H. reflexivity. Qed.

Lemma handleQuerySubmit_rejected executeQuery question reason init :
  outcome (executeQuery {| request_question := question |}) = Rejected reason ->
  queryResultAfter init (handleQuerySubmit executeQuery question)
  = Some (failureResult question reason).
Proof. intros H. unfold handleQuerySubmit. rewrite H. reflexivity. Qed.


(** C7, as stated, fails: a request rejected after 60000 ms gives an error
    result whose [execution_time_ms] is 0. *)
Lemma rejected_request_time_is_zero :
  exists r,
    queryResultAfter None (handleQuerySubmit timedOut (lit "Count all orders"))
    = Some r
    /\ success r = false
    /\ elapsed_ms (timedOut {| request_question := lit "Count all orders" |}) = 60000%Z
    /\ execution_time_ms r = 0%Z
    /\ ~ carries_elapsed_time
           (timedOut {| request_question := lit "Count all orders" |}) r.
Proof.
  eexists. split; [reflexivity|]. repeat split. discriminate.
Qed.

(** C7, amended: an error result that the server returns reaches the view
    with the [execution_time_ms] it carries, and the view shows that number;
    the error result the page builds for a rejected request has
    [execution_time_ms] 0, whatever time the request took. *)
Theorem error_result_time (executeQuery : QueryRequest -> Settled)
    (question : jsstring) (init : option QueryResponse) :
  let settled := executeQuery {| request_question := question |} in
  let shown := queryResultAfter init (handleQuerySubmit executeQuery question) in
  (forall data, outcome settled = Fulfilled data -> success data = false ->
     shown = Some data
     /\ ResultsDisplay shown = QueryFailed (error data) (execution_time_ms data))
  /\ (forall reason, outcome settled = Rejected reason ->
        exists r, shown = Some r /\ success r = false
                  /\ execution_time_ms r = 0%Z
                  /\ ResultsDisplay shown
                     = QueryFailed (Some (messageOr (lit "Query failed") reason)) 0).
Proof.
  intros settled shown. subst settled shown. split.
  - intros data Hd Hs.
    rewrite (handleQuerySubmit_fulfilled _ _ _ _ Hd).
    split; [reflexivity|]. unfold ResultsDisplay. rewrite Hs. reflexivity.
  - intros reason Hr.
    rewrite (handleQuerySubmit_rejected _ _ _ _ Hr).
    eexists. split; [reflexivity|]. repeat split.
Qed.

End Results.

End ClientFacts.

(** * Properties of the pipeline *)
Module PipelineFacts.
Import Pipeline.

(** ** Texts *)

Lemma append_cons (c : ascii) (s t : string) :
  String c s +:+ t = String c (s +:+ t).
Proof. reflexivity. Qed.

Lemma append_empty_l (t : string) : "" +:+ t = t.
Proof. reflexivity. Qed.

Lemma append_empty_r (s : string) : s +:+ "" = s.
Proof. induction s as [|c s IH]; [reflexivity|]. rewrite append_cons, IH. reflexivity. Qed.

Lemma append_assoc (s t u : string) : (s +:+ t) +:+ u = s +:+ (t +:+ u).
Proof.
  induction s as [|c s IH]; [reflexivity|].
  rewrite !append_cons, IH. reflexivity.
Qed.

(** ** The lexer over a stretch of text *)

Lemma steps_app (m : Mode) (s t : string) :
  steps m (s +:+ t)
  = match steps m s with
    | Some (out, m') =>
        match steps m' t with
        | Some (out', m'') => Some (out ++ out', m'')
        | None => None
        end
    | None => None
    end.
Proof.
  revert m. induction s as [|c s IH]; intros m.
  - rewrite append_empty_l. simpl. destruct (steps m t) as [[out m']|]; reflexivity.
  - rewrite append_cons. cbn [steps].
    destruct (step m c) as [[out m']|]; [|reflexivity].
    rewrite IH. destruct (steps m' s) as [[o1 m1]|]; [|reflexivity].
    destruct (steps m1 t) as [[o2 m2]|]; [|reflexivity].
    rewrite app_assoc. reflexivity.
Qed.

Lemma steps_then (m m' : Mode) (s t : string) (out : list Token) :
  steps m s = Some (out, m') ->
  steps m (s +:+ t)
  = match steps m' t with
    | Some (out', m'') => Some (out ++ out', m'')
    | None => None
    end.
Proof. intros H. rewrite steps_app, H. reflexivity. Qed.

Lemma scan_steps (m : Mode) (s : string) :
  scan m s
  = match steps m s with
    | Some (out, m') => app out <$> finish m'
    | None => None
    end.
Proof.
  revert m. induction s as [|c s IH]; intros m; simpl.
  - destruct (finish m); reflexivity.
  - destruct (step m c) as [[out m']|]; [|reflexivity].
    rewrite IH. destruct (steps m' s) as [[o1 m1]|]; [|reflexivity].
    destruct (finish m1); simpl; [rewrite app_assoc|]; reflexivity.
Qed.

Lemma is_quote_mark_dquote (c : ascii) : is_quote_mark c = is_dquote c.
Proof. destruct c as [[] [] [] [] [] [] [] []]; reflexivity. Qed.

Lemma snoc_append (s t : string) (c : ascii) : snoc s c +:+ t = s +:+ String c t.
Proof. unfold snoc. rewrite append_assoc. reflexivity. Qed.

(** Inside a quoted identifier the escaped name reads as the name. *)
Lemma steps_escape (acc name : string) :
  steps (InName acc) (escape name) = Some ([], InName (acc +:+ name)).
Proof.
  revert acc. induction name as [|c name IH]; intros acc.
  - simpl. rewrite append_empty_r. reflexivity.
  - cbn [escape]. destruct (is_dquote c) eqn:Hc.
    + apply Ascii.eqb_eq in Hc. subst c.
      cbn [steps step]. change (is_quote_mark dquote) with true. cbn iota.
      cbn [step]. change (is_quote_mark dquote) with true. cbn iota.
      rewrite IH, snoc_append. reflexivity.
    + cbn [steps step]. rewrite is_quote_mark_dquote, Hc.
      rewrite IH, snoc_append. reflexivity.
Qed.

Lemma steps_quote_identifier (name : string) :
  steps Idle (quote_identifier name) = Some ([], NameQuote name).
Proof.
  unfold quote_identifier.
  cbn [steps step]. change (idle dquote) with (Some (@nil Token, InName "")).
  cbn iota.
  rewrite (steps_then _ _ _ _ _ (steps_escape "" name)). reflexivity.
Qed.

(** ** The tokens of a compiled text *)

Lemma comparison_reads_as (c op : string) (o : Operator) :
  steps (NameQuote c) (" " +:+ op +:+ " ?")
  = Some ([TName c; TOp o; TPlaceholder], Idle) ->
  reads_as (comparison_sql c op) (c, o).
Proof.
  intros H. unfold reads_as, comparison_sql.
  rewrite (steps_then _ _ _ _ _ (steps_quote_identifier c)), H. reflexivity.
Qed.

Lemma conditions_read_as (q : CanonicalQuery) :
  Forall2 reads_as (where_conditions q) (comparisons q).
Proof.
  unfold where_conditions, comparisons. apply Forall2_app.
  - apply Forall2_fmap, Forall_Forall2_diag, Forall_forall. intros f _.
    apply comparison_reads_as. destruct (filter_operator f); reflexivity.
  - destruct (time_filter q) as [tf|]; [|constructor].
    repeat constructor; apply comparison_reads_as.
    + destruct (lower_inclusive tf); reflexivity.
    + destruct (upper_inclusive tf); reflexivity.
Qed.

Lemma steps_join (conds : list string) (cs : list (string * Operator)) :
  Forall2 reads_as conds cs -> conds <> [] ->
  steps Idle (join " AND " conds) = Some (condition_tokens cs, Idle).
Proof.
  induction 1 as [|cond [c o] conds cs Hc Hcs IH]; [congruence|]. intros _.
  destruct Hcs as [|cond' [c' o'] conds cs Hc' Hcs].
  - exact Hc.
  - change (join " AND " (cond :: cond' :: conds))
      with (cond +:+ " AND " +:+ join " AND " (cond' :: conds)).
    rewrite (steps_then _ _ _ _ _ Hc).
    rewrite (steps_then Idle Idle " AND " _ [TWord "AND"] eq_refl).
    rewrite IH by discriminate. reflexivity.
Qed.

Lemma steps_projection (p : Projection) :
  steps Idle (projection_sql p) = Some (projection_tokens p, Idle).
Proof.
  destruct p as [|fn c]; [reflexivity|]. unfold projection_sql.
  rewrite <- append_assoc.
  assert (Hfn : steps Idle (aggregation_sql fn +:+ "(")
                = Some ([TWord (aggregation_sql fn); TOpen], Idle))
    by (destruct fn; reflexivity).
  rewrite (steps_then _ _ _ _ _ Hfn).
  rewrite (steps_then _ _ _ _ _ (steps_quote_identifier c)).
  destruct fn; reflexivity.
Qed.

Lemma steps_where (t : string) (conds : list string) (cs : list (string * Operator)) :
  Forall2 reads_as conds cs ->
  scan (NameQuote t) (where_sql conds)
  = Some (TName t :: match cs with
                     | [] => []
                     | _ :: _ => TWord "WHERE" :: condition_tokens cs
                     end).
Proof.
  intros H. destruct H as [|cond c conds cs Hc Hcs]; [reflexivity|].
  unfold where_sql. rewrite scan_steps.
  rewrite (steps_then (NameQuote t) Idle " WHERE " _ [TName t; TWord "WHERE"] eq_refl).
  rewrite (steps_join (cond :: conds) (c :: cs))
    by (try discriminate; constructor; assumption).
  cbn [finish fmap option_fmap option_map]. rewrite app_nil_r. reflexivity.
Qed.

Lemma scan_then (m m' : Mode) (s t : string) (out : list Token) :
  steps m s = Some (out, m') ->
  scan m (s +:+ t) = app out <$> scan m' t.
Proof.
  intros H. rewrite !scan_steps, (steps_then _ _ _ _ _ H).
  destruct (steps m' t) as [[o1 m1]|]; [|reflexivity].
  destruct (finish m1); simpl; [rewrite app_assoc|]; reflexivity.
Qed.

(** The compiled text of a query has the tokens of the statement form, for
    the projection, the table and the comparisons of the query. *)
Lemma tokens_compile (q : CanonicalQuery) :
  tokens (text (compile q))
  = Some (statement_tokens (projection q) (table q) (comparisons q)).
Proof.
  unfold tokens, compile, text.
  rewrite (scan_then Idle Idle "SELECT " _ [TWord "SELECT"] eq_refl).
  rewrite (scan_then _ _ _ _ _ (steps_projection (projection q))).
  rewrite (scan_then Idle Idle " FROM " _ [TWord "FROM"] eq_refl).
  rewrite (scan_then _ _ _ _ _ (steps_quote_identifier (table q))).
  rewrite (steps_where _ _ _ (conditions_read_as q)).
  reflexivity.
Qed.

(** ** Parsing the tokens of the statement form *)

Lemma parse_conditions_tokens (c : string * Operator) (cs : list (string * Operator)) :
  parse_conditions (condition_tokens (c :: cs)) = Some (c :: cs).
Proof.
  revert c. induction cs as [|c' cs IH]; intros [c o]; [reflexivity|].
  change (condition_tokens ((c, o) :: c' :: cs))
    with (TName c :: TOp o :: TPlaceholder :: TWord "AND" :: condition_tokens (c' :: cs)).
  cbn [parse_conditions]. change (String.eqb (lowercase "AND") "and") with true.
  cbn iota. rewrite IH. reflexivity.
Qed.

Lemma parse_projection_tokens (p : Projection) (rest : list Token) :
  parse_projection (projection_tokens p ++ rest) = Some (p, rest).
Proof. destruct p as [|[] c]; reflexivity. Qed.

Lemma parse_statement_tokens (p : Projection) (t : string) (cs : list (string * Operator)) :
  parse (statement_tokens p t cs)
  = Some {| stmt_projection := p; stmt_table := t; stmt_conditions := cs |}.
Proof.
  unfold statement_tokens, parse.
  change (String.eqb (lowercase "SELECT") "select") with true. cbn iota.
  rewrite parse_projection_tokens.
  change (String.eqb (lowercase "FROM") "from") with true. cbn iota.
  destruct cs as [|c cs]; [reflexivity|].
  change (String.eqb (lowercase "WHERE") "where") with true. cbn iota.
  rewrite parse_conditions_tokens. reflexivity.
Qed.

(** The compiled text of a query reads as the statement of its projection,
    its table and its comparisons. *)
Lemma read_compile (q : CanonicalQuery) :
  read (text (compile q))
  = Some {| stmt_projection := projection q; stmt_table := table q;
            stmt_conditions := comparisons q |}.
Proof.
  unfold read. rewrite tokens_compile. simpl.
  apply parse_statement_tokens.
Qed.

(** ** Counting tokens *)

Lemma count_if_app {A} (p : A -> bool) (l l' : list A) :
  count_if p (l ++ l') = count_if p l + count_if p l'.
Proof. induction l as [|x l IH]; [reflexivity|]. simpl. rewrite IH. lia. Qed.

Lemma count_condition_tokens (p : Token -> bool) (k : nat) (cs : list (string * Operator)) :
  p (TWord "AND") = false ->
  (forall c o, count_if p [TName c; TOp o; TPlaceholder] = k) ->
  count_if p (condition_tokens cs) = k * length cs.
Proof.
  intros Hand Hk. induction cs as [|[c o] cs IH]; [simpl; lia|].
  destruct cs as [|c' cs].
  - change (condition_tokens [(c, o)]) with [TName c; TOp o; TPlaceholder].
    rewrite (Hk c o). simpl. lia.
  - change (condition_tokens ((c, o) :: c' :: cs))
      with ([TName c; TOp o; TPlaceholder] ++ TWord "AND" :: condition_tokens (c' :: cs)).
    rewrite count_if_app, (Hk c o). cbn [count_if]. rewrite Hand, IH.
    simpl length. lia.
Qed.

Lemma count_statement_tokens (p : Token -> bool) (s k : nat)
    (pr : Projection) (t : string) (cs : list (string * Operator)) :
  (if p (TWord "SELECT") then 1 else 0) = s ->
  p (TWord "FROM") = false -> p (TWord "WHERE") = false ->
  p (TWord "AND") = false ->
  (forall fn, p (TWord (aggregation_sql fn)) = false) ->
  p TStar = false -> p TOpen = false -> p TClose = false ->
  (forall c, p (TName c) = false) ->
  (forall c o, count_if p [TName c; TOp o; TPlaceholder] = k) ->
  count_if p (statement_tokens pr t cs) = s + k * length cs.
Proof.
  intros Hs Hfrom Hwhere Hand Hagg Hstar Hopen Hclose Hname Hk.
  unfold statement_tokens. cbn [count_if]. rewrite Hs, count_if_app.
  assert (Hp : count_if p (projection_tokens pr) = 0).
  { destruct pr as [|fn c]; simpl.
    - rewrite Hstar. reflexivity.
    - pose proof (Hagg fn) as Hfn.
      destruct fn; simpl in *; rewrite Hfn, Hopen, Hname, Hclose; reflexivity. }
  rewrite Hp. cbn [count_if]. rewrite Hfrom, Hname.
  destruct cs as [|c cs]; [simpl; lia|].
  cbn [count_if]. rewrite Hwhere.
  rewrite (count_condition_tokens p k (c :: cs) Hand Hk). lia.
Qed.

Lemma length_comparisons (q : CanonicalQuery) :
  length (comparisons q) = length (params (compile q)).
Proof.
  unfold comparisons, compile. simpl.
  rewrite !length_app, !length_fmap.
  destruct (time_filter q); reflexivity.
Qed.

(** ** Characters anywhere in the text *)







(** ** The text ignores the literals *)

Lemma conditions_with_literals (v : Literal) (q : CanonicalQuery) :
  where_conditions (with_literals v q) = where_conditions q.
Proof.
  unfold where_conditions, with_literals. simpl. f_equal.
  - rewrite <- list_fmap_compose. apply list_fmap_ext. intros _ f _. reflexivity.
  - destruct (time_filter q); reflexivity.
Qed.

Lemma text_with_literals (v : Literal) (q : CanonicalQuery) :
  text (compile (with_literals v q)) = text (compile q).
Proof.
  unfold compile, text. rewrite conditions_with_literals. reflexivity.
Qed.

(** ** Reading back a successful run *)







Lemma resolve_inv (cv : Conventions) today intent rules (schema : SchemaCatalog) q :
  resolve cv today intent rules schema = Ok q ->
  exists m given agg,
    resolve_metric intent rules = Ok m
    /\ resolve_entity intent rules m = Ok (table q)
    /\ resolve_time cv today intent rules (table q) = Ok (time_filter q)
    /\ traverse (resolve_filter (table_columns schema (table q)))
                (default [] (filters intent)) = Ok given
    /\ resolve_aggregation intent = Ok agg
    /\ projection q = resolve_projection cv agg m
    /\ query_filters q = table_defaults rules (table q) ++ given.
Proof.
  unfold resolve.
  destruct (resolve_metric intent rules) as [m|] eqn:Hm; simpl; [|discriminate].
  destruct (resolve_entity intent rules m) as [t|] eqn:Ht; simpl; [|discriminate].
  destruct (resolve_time cv today intent rules t) as [time|] eqn:Htime;
    simpl; [|discriminate].
  simpl.
  destruct (traverse _ _) as [given|] eqn:Hgiven; simpl; [|discriminate].
  destruct (resolve_aggregation intent) as [agg|] eqn:Hagg; simpl; [|discriminate].
  simpl. intros [= <-]. simpl. exists m, given, agg. auto 10.
Qed.



Lemma validate_Ok (cv : Conventions) q (schema : SchemaCatalog) q' :
  validate cv q schema = Ok q' -> q' = q.
Proof.
  unfold validate. destruct (schema !! table q) as [info|]; [|discriminate].
  destruct (validate_projection cv info (projection q)); simpl; [|discriminate].
  destruct (traverse _ _); simpl; [|discriminate].
  destruct (validate_time cv info (time_filter q)); simpl; [|discriminate].
  simpl. congruence.
Qed.


Lemma run_inv (cv : Conventions) today intent rules (schema : SchemaCatalog) q stmt :
  run cv today intent rules schema = Ok (q, stmt) ->
  resolve cv today intent rules schema = Ok q
  /\ validate cv q schema = Ok q
  /\ stmt = compile q.
Proof.
  unfold run.
  destruct (resolve cv today intent rules schema) as [q0|]; simpl; [|discriminate].
  destruct (validate cv q0 schema) as [q1|] eqn:Hv; simpl; [|discriminate].
  intros [= <- <-]. pose proof (validate_Ok _ _ _ _ Hv) as ->. auto.
Qed.




Lemma zip_comparisons (q : CanonicalQuery) :
  zip (comparisons q) (params (compile q))
  = ((fun f => ((filter_column f, filter_operator f), filter_value f))
       <$> query_filters q)
    ++ match time_filter q with
       | Some tf =>
           [((time_column tf, if lower_inclusive tf then OpGe else OpGt), lower tf);
            ((time_column tf, if upper_inclusive tf then OpLe else OpLt), upper tf)]
       | None => []
       end.
Proof.
  unfold comparisons, compile, params.
  generalize (query_filters q). intros fs.
  induction fs as [|f fs IH].
  - destruct (time_filter q); reflexivity.
  - rewrite !fmap_cons. simpl. f_equal. exact IH.
Qed.

(** ** The compiled statement *)

(** The side conditions of [count_statement_tokens]: what a predicate on
    tokens says of the fixed tokens of the statement form. *)
Ltac fixed_tokens :=
  try reflexivity; try (intros []; reflexivity); try (intros; reflexivity).



(** C5: the text of a validated query reads as a statement whose WHERE
    clause compares a column against a placeholder in every condition, so
    no literal is in the text; the n-th condition and the n-th parameter
    are column, operator and value of the n-th filter of the query, and
    after the filters come the lower bound, against the time column from
    below, and then the upper bound, against the time column from above;
    there is a placeholder for each parameter and the text is the same
    whatever the literal values are. *)
Theorem parameters_in_placeholder_order (cv : Conventions) (q : CanonicalQuery)
    (schema : SchemaCatalog) :
  validate cv q schema = Ok q ->
  exists toks st,
    tokens (text (compile q)) = Some toks
    /\ parse toks = Some st
    /\ read (text (compile q)) = Some st
    /\ stmt_projection st = projection q
    /\ stmt_table st = table q
    /\ count_if is_placeholder toks = length (params (compile q))
    /\ length (stmt_conditions st) = length (params (compile q))
    /\ zip (stmt_conditions st) (params (compile q))
       = ((fun f => ((filter_column f, filter_operator f), filter_value f))
            <$> query_filters q)
         ++ match time_filter q with
            | Some tf =>
                [((time_column tf, if lower_inclusive tf then OpGe else OpGt),
                  lower tf);
                 ((time_column tf, if upper_inclusive tf then OpLe else OpLt),
                  upper tf)]
            | None => []
            end
    /\ (forall v, text (compile (with_literals v q)) = text (compile q)).
Proof.
  intros _.
  exists (statement_tokens (projection q) (table q) (comparisons q)).
  eexists. split; [apply tokens_compile|].
  split; [apply parse_statement_tokens|].
  split; [apply read_compile|]. cbn [stmt_projection stmt_table stmt_conditions].
  split; [reflexivity|]. split; [reflexivity|].
  split; [|split; [|split]].
  - rewrite (count_statement_tokens _ 0 1); fixed_tokens.
    rewrite length_comparisons. lia.
  - apply length_comparisons.
  - apply zip_comparisons.
  - intros v. apply text_with_literals.
Qed.

Lemma parameters_in_placeholder_order_witness :
  validate Scenario.conventions Scenario.revenue_query Scenario.schema
  = Ok Scenario.revenue_query
  /\ exists st,
       read (text (compile Scenario.revenue_query)) = Some st
       /\ zip (stmt_conditions st) (params (compile Scenario.revenue_query))
          = [(("status", OpEq), LText "completed");
             (("created_at", OpGe), LDate {| year := 2024; month := 5; day := 1 |});
             (("created_at", OpLt), LDate {| year := 2024; month := 6; day := 1 |})].
Proof.
  assert (H : validate Scenario.conventions Scenario.revenue_query Scenario.schema
              = Ok Scenario.revenue_query) by (vm_compute; reflexivity).
  destruct (parameters_in_placeholder_order _ _ _ H)
    as (toks & st & _ & _ & Hr & _ & _ & _ & _ & Hz & _).
  split; [exact H|]. exists st. split; [exact Hr | exact Hz].
Defined.

(** ** The resolver *)



(** C3: an intent whose metric term or entity term is missing from the
    rule set fails to resolve with the error of a missing term it has:
    UnknownMetric when the metric term is the one that is missing,
    UnknownEntity when the entity term is, one of the two when both are.
    No CanonicalQuery comes out, so no table at all, and nothing is
    compiled. *)
Theorem unknown_terms_fail (cv : Conventions) (today : Date)
    (intent : SemanticIntent) (rules : BusinessRuleSet) (schema : SchemaCatalog) :
  (unknown_metric intent rules \/ unknown_entity intent rules ->
   (resolve cv today intent rules schema = Err ResolutionError.UnknownMetric
    /\ unknown_metric intent rules)
   \/ (resolve cv today intent rules schema = Err ResolutionError.UnknownEntity
       /\ unknown_entity intent rules))
  /\ (unknown_metric intent rules -> ~ unknown_entity intent rules ->
      resolve cv today intent rules schema = Err ResolutionError.UnknownMetric)
  /\ (unknown_entity intent rules -> ~ unknown_metric intent rules ->
      resolve cv today intent rules schema = Err ResolutionError.UnknownEntity)
  /\ (unknown_metric intent rules \/ unknown_entity intent rules ->
      (forall q, resolve cv today intent rules schema <> Ok q)
      /\ (forall out, run cv today intent rules schema <> Ok out)).
Proof.
  assert (Hmetric : unknown_metric intent rules ->
    resolve cv today intent rules schema = Err ResolutionError.UnknownMetric).
  { intros (term & Hi & Hr). unfold resolve, resolve_metric.
    rewrite Hi, Hr. reflexivity. }
  assert (Hentity : unknown_entity intent rules ->
    unknown_metric intent rules
    \/ resolve cv today intent rules schema = Err ResolutionError.UnknownEntity).
  { intros (term & Hi & Hr). unfold resolve, resolve_metric, resolve_entity.
    rewrite Hi, Hr. destruct (metric intent) as [mterm|] eqn:Hm.
    - destruct (metric_mappings rules !! mterm) as [m|] eqn:Hmm.
      + right. reflexivity.
      + left. exists mterm. auto.
    - right. reflexivity. }
  assert (Hone : unknown_metric intent rules \/ unknown_entity intent rules ->
    (resolve cv today intent rules schema = Err ResolutionError.UnknownMetric
     /\ unknown_metric intent rules)
    \/ (resolve cv today intent rules schema = Err ResolutionError.UnknownEntity
        /\ unknown_entity intent rules)).
  { intros [Hm | He].
    - left. auto.
    - destruct (Hentity He) as [Hm | Hr]; [left | right]; auto. }
  split; [exact Hone|]. split; [|split].
  - intros Hm _. auto.
  - intros He Hm. destruct (Hentity He) as [Hm' | Hr]; [contradiction | exact Hr].
  - intros H. destruct (Hone H) as [[Hr _] | [Hr _]]; split.
    + intros q. rewrite Hr. discriminate.
    + intros out. unfold run. rewrite Hr. discriminate.
    + intros q. rewrite Hr. discriminate.
    + intros out. unfold run. rewrite Hr. discriminate.
Qed.

Lemma unknown_terms_fail_witness :
  unknown_entity
    {| metric := Some "revenue"; entity := Some "invoices"; aggregation := None;
       time_range := None; filters := None |} Scenario.rules
  /\ resolve Scenario.conventions Scenario.may_15
       {| metric := Some "revenue"; entity := Some "invoices"; aggregation := None;
          time_range := None; filters := None |} Scenario.rules Scenario.schema
     = Err ResolutionError.UnknownEntity.
Proof.
  assert (He : unknown_entity
    {| metric := Some "revenue"; entity := Some "invoices"; aggregation := None;
       time_range := None; filters := None |} Scenario.rules).
  { exists "invoices". split; [reflexivity | vm_compute; reflexivity]. }
  split; [exact He|].
  apply (unknown_terms_fail Scenario.conventions Scenario.may_15 _ Scenario.rules
           Scenario.schema); [exact He|].
  intros (term & Hi & Hr). injection Hi as <-. vm_compute in Hr. discriminate.
Defined.

(** C4: when the rule set declares default filters for the table of a
    query the pipeline produces, the text of the statement reads as a
    statement over that table whose WHERE clause starts with the
    comparisons of those filters, column and operator against a
    placeholder, in rule-set order, and the parameters start with their
    values; with no filter and no time range in the intent they are the
    whole clause and all the parameters. *)
Theorem default_filters_in_where (cv : Conventions) (today : Date)
    (intent : SemanticIntent) (rules : BusinessRuleSet) (schema : SchemaCatalog)
    (q : CanonicalQuery) (stmt : CompiledStatement) (dfs : list DefaultFilter) :
  run cv today intent rules schema = Ok (q, stmt) ->
  default_filters rules !! table q = Some dfs ->
  exists st,
    read (text stmt) = Some st
    /\ stmt_table st = table q
    /\ length dfs <= length (stmt_conditions st)
    /\ take (length dfs) (stmt_conditions st)
       = (fun d => (filter_column (predicate d), filter_operator (predicate d)))
           <$> dfs
    /\ take (length dfs) (params stmt)
       = (fun d => filter_value (predicate d)) <$> dfs
    /\ (default [] (filters intent) = [] -> time_range intent = None ->
        stmt_conditions st
        = (fun d => (filter_column (predicate d), filter_operator (predicate d)))
            <$> dfs
        /\ params stmt = (fun d => filter_value (predicate d)) <$> dfs).
Proof.
  intros Hrun Hdfs.
  destruct (run_inv _ _ _ _ _ _ _ Hrun) as (Hq & _ & ->).
  destruct (resolve_inv _ _ _ _ _ _ Hq)
    as (m & given & agg & _ & _ & Htime & Hgiven & _ & _ & Hf).
  unfold table_defaults in Hf. rewrite Hdfs in Hf. cbn [default] in Hf.
  eexists. split; [apply read_compile|].
  cbn [stmt_table stmt_conditions]. split; [reflexivity|].
  assert (Hc : comparisons q
               = ((fun d => (filter_column (predicate d), filter_operator (predicate d)))
                    <$> dfs)
                 ++ ((fun f => (filter_column f, filter_operator f)) <$> given)
                 ++ match time_filter q with
                    | Some tf =>
                        [(time_column tf, if lower_inclusive tf then OpGe else OpGt);
                         (time_column tf, if upper_inclusive tf then OpLe else OpLt)]
                    | None => []
                    end).
  { unfold comparisons. rewrite Hf, fmap_app, <- list_fmap_compose, <- app_assoc.
    reflexivity. }
  assert (Hp : params (compile q)
               = ((fun d => filter_value (predicate d)) <$> dfs)
                 ++ (filter_value <$> given) ++ time_params (time_filter q)).
  { unfold compile, params.
    rewrite Hf, fmap_app, <- list_fmap_compose, <- app_assoc. reflexivity. }
  rewrite Hc, Hp. split; [|split; [|split]].
  - rewrite length_app, length_fmap. lia.
  - rewrite <- (length_fmap (fun d => (filter_column (predicate d),
                                       filter_operator (predicate d))) dfs) at 1.
    apply take_app_length.
  - rewrite <- (length_fmap (fun d => filter_value (predicate d)) dfs) at 1.
    apply take_app_length.
  - intros Hnone Hnotime. rewrite Hnone in Hgiven. injection Hgiven as <-.
    unfold resolve_time in Htime. rewrite Hnotime in Htime.
    injection Htime as <-. rewrite !fmap_nil, !app_nil_r. split; reflexivity.
Qed.

Lemma default_filters_in_where_witness :
  run Scenario.conventions Scenario.may_15 Scenario.big_orders Scenario.rules
      Scenario.schema
  = Ok (Scenario.big_orders_query, compile Scenario.big_orders_query)
  /\ exists st,
       read (text (compile Scenario.big_orders_query)) = Some st
       /\ stmt_table st = "orders"
       /\ take 1 (stmt_conditions st) = [("status", OpEq)]
       /\ take 1 (params (compile Scenario.big_orders_query)) = [LText "completed"].
Proof.
  assert (H : run Scenario.conventions Scenario.may_15 Scenario.big_orders
                  Scenario.rules Scenario.schema
              = Ok (Scenario.big_orders_query, compile Scenario.big_orders_query))
    by (vm_compute; reflexivity).
  split; [exact H|].
  destruct (default_filters_in_where _ _ _ _ _ _ _ [Scenario.completed] H)
    as (st & Hr & Ht & _ & Hc & Hp & _).
  - vm_compute; reflexivity.
  - exists st. auto.
Defined.

(** The listing of section 8: with no filter in the intent the default
    filter is the whole WHERE clause. *)
Example listing_has_the_default_filter :
  run Scenario.conventions Scenario.may_15 Scenario.list_orders Scenario.rules
      Scenario.schema
  = Ok (Scenario.orders_listing,
        {| text := "SELECT * FROM " +:+ quote_identifier "orders" +:+ " WHERE "
                   +:+ quote_identifier "status" +:+ " = ?";
           params := [LText "completed"] |}).
Proof. vm_compute. reflexivity. Qed.

(** The scenarios of section 8, end to end. *)
Example revenue_this_month_compiles :
  run Scenario.conventions Scenario.may_15 Scenario.revenue_this_month
      Scenario.bare_rules Scenario.schema
  = Ok ({| table := "orders"; projection := Aggregate SUM "amount";
           query_filters := [];
           time_filter :=
             Some {| time_column := "created_at";
                     lower := LDate {| year := 2024; month := 5; day := 1 |};
                     upper := LDate {| year := 2024; month := 6; day := 1 |};
                     lower_inclusive := true; upper_inclusive := false |} |},
        {| text := "SELECT SUM(" +:+ quote_identifier "amount" +:+ ") FROM "
                   +:+ quote_identifier "orders" +:+ " WHERE "
                   +:+ quote_identifier "created_at" +:+ " >= ? AND "
                   +:+ quote_identifier "created_at" +:+ " < ?";
           params := [LDate {| year := 2024; month := 5; day := 1 |};
                      LDate {| year := 2024; month := 6; day := 1 |}] |}).
Proof. vm_compute. reflexivity. Qed.

(** The same request a month later: the same text, other bounds. *)
Example bounds_follow_the_day :
  match run Scenario.conventions Scenario.june_2 Scenario.revenue_this_month
            Scenario.bare_rules Scenario.schema,
        run Scenario.conventions Scenario.may_15 Scenario.revenue_this_month
            Scenario.bare_rules Scenario.schema
  with
  | Ok (_, later), Ok (_, earlier) =>
      text later = text earlier
      /\ params later = [LDate {| year := 2024; month := 6; day := 1 |};
                         LDate {| year := 2024; month := 7; day := 1 |}]
      /\ params later <> params earlier
  | _, _ => False
  end.
Proof. vm_compute. split; [reflexivity|]. split; [reflexivity | discriminate]. Qed.

Example unknown_field_stops_resolution :
  resolve Scenario.conventions Scenario.may_15
    {| metric := None; entity := Some "orders"; aggregation := None;
       time_range := None;
       filters := Some [ {| field := "discount"; operator := "=";
                            value := LInt 5 |} ] |}
    Scenario.rules Scenario.schema
  = Err (ResolutionError.UnknownColumn "discount").
Proof. vm_compute. reflexivity. Qed.

Example sum_over_text_is_rejected :
  validate Scenario.conventions
    {| table := "orders"; projection := Aggregate SUM "status";
       query_filters := []; time_filter := None |}
    Scenario.schema
  = Err ValidationError.TypeMismatch.
Proof. vm_compute. reflexivity. Qed.

End PipelineFacts.


(** * Further properties of the client *)
Module ClientExtras.
Import Js.

Local Abbreviation blank := (Forall (fun c => isWhiteSpace c = true)).

(** ** More on trim *)

Lemma trimStart_blank (s : jsstring) : blank s <-> trimStart s = [].
Proof.
  split.
  - induction 1 as [|c s Hc _ IH]; [reflexivity|]. simpl. rewrite Hc. exact IH.
  - intros H. destruct (ClientFacts.trimStart_split s) as (pre & Hs & Hpre).
    rewrite H, app_nil_r in Hs. subst s. exact Hpre.
Qed.

Lemma trim_blank (s : jsstring) : blank s <-> trim s = [].
Proof.
  split.
  - intros H. unfold trim. apply trimStart_blank in H. rewrite H. reflexivity.
  - intros H. destruct (ClientFacts.trim_split s) as (pre & post & Hs & Hpre & Hpost).
    rewrite H in Hs. subst s. apply Forall_app. split; assumption.
Qed.

Lemma trim_visible (s : jsstring) :
  trim s <> [] <-> exists c, c ∈ s /\ isWhiteSpace c = false.
Proof.
  split.
  - intros H. destruct (trim s) as [|c t] eqn:Ht; [congruence|].
    exists c. split.
    + destruct (ClientFacts.trim_split s) as (pre & post & Hs & _).
      rewrite Hs, Ht. apply elem_of_app. right. apply elem_of_cons. left. reflexivity.
    + apply (ClientFacts.trim_head s). rewrite Ht. reflexivity.
  - intros (c & Hin & Hc) Ht. apply trim_blank in Ht.
    rewrite Forall_forall in Ht. specialize (Ht c Hin). congruence.
Qed.

Lemma trimStart_fixed (s : jsstring) :
  (forall c, head s = Some c -> isWhiteSpace c = false) -> trimStart s = s.
Proof.
  destruct s as [|c s]; [reflexivity|]. intros H. simpl.
  rewrite (H c eq_refl). reflexivity.
Qed.

Lemma trim_idempotent (s : jsstring) : trim (trim s) = trim s.
Proof.
  unfold trim at 1.
  rewrite (trimStart_fixed (trim s)) by apply ClientFacts.trim_head.
  unfold trimEnd. rewrite trimStart_fixed.
  - apply reverse_involutive.
  - intros c. rewrite head_reverse. apply ClientFacts.trim_last.
Qed.

(** ** The query form *)
Section Form.
Import QueryInterface QueryForm.

(** X1: [handleSubmit] calls [onSubmit] exactly when no query is loading
    and the question has a code unit that is not white space; the submit
    button is disabled exactly when a query is loading or the question is
    all white space. *)
Theorem submit_needs_visible_text (question : jsstring) (loading : bool) :
  ((exists a, OnSubmit a ∈ handleSubmit question loading)
   <-> loading = false
       /\ exists c, c ∈ question /\ isWhiteSpace c = false)
  /\ (submitDisabled question loading = true
      <-> loading = true \/ blank question).
Proof.
  split.
  - rewrite <- trim_visible.
    destruct (ClientFacts.handleSubmit_cases question loading)
      as [(Ht & Hl & ->) | (Hno & ->)].
    + split; [auto|]. intros _. exists (trim question).
      apply elem_of_cons. right. apply list_elem_of_singleton. reflexivity.
    + split.
      * intros [a Ha]. apply list_elem_of_singleton in Ha. discriminate.
      * intros [Hl Ht]. destruct Hno; congruence.
  - unfold submitDisabled. rewrite trim_blank, orb_true_iff, negb_true_iff.
    destruct (trim question); simpl; split; intros [H|H]; auto; discriminate.
Qed.

(** X2: the text [onSubmit] gets is a stretch of the question: the
    question is white space, then that text, then white space; the text is
    kept as it is, white space inside it included, and trimming it again
    changes nothing. *)
Theorem submitted_text_is_question_core (question : jsstring) (loading : bool)
    (a : jsstring) :
  OnSubmit a ∈ handleSubmit question loading ->
  (exists pre post, question = pre ++ a ++ post /\ blank pre /\ blank post)
  /\ trim a = a.
Proof.
  intros Ha.
  assert (a = trim question) as ->.
  { destruct (ClientFacts.handleSubmit_cases question loading)
      as [(_ & _ & Heq) | (_ & Heq)]; rewrite Heq in Ha.
    - apply elem_of_cons in Ha as [Ha | Ha]; [discriminate|].
      apply list_elem_of_singleton in Ha. congruence.
    - apply list_elem_of_singleton in Ha. discriminate. }
  split; [apply ClientFacts.trim_split | apply trim_idempotent].
Qed.

Lemma submitted_text_is_question_core_witness :
  OnSubmit (lit "Count  all orders")
    ∈ handleSubmit (9 :: lit " Count  all orders  ")%N false
  /\ trim (lit "Count  all orders") = lit "Count  all orders".
Proof.
  assert (H : OnSubmit (lit "Count  all orders")
                ∈ handleSubmit (9 :: lit " Count  all orders  ")%N false).
  { apply elem_of_cons. right. apply list_elem_of_singleton. reflexivity. }
  split; [exact H|].
  exact (proj2 (submitted_text_is_question_core _ _ _ H)).
Defined.

Lemma handle_text (question : jsstring) (ev : event) :
  fold_left step (handle question ev) question = textAfter question [ev].
Proof.
  destruct ev as [v|v|l]; try reflexivity.
  cbn [handle]. destruct (ClientFacts.handleSubmit_cases question l)
    as [(_ & _ & ->) | (_ & ->)]; reflexivity.
Qed.

Lemma textAfter_cons (question : jsstring) (ev : event) (evs : list event) :
  textAfter question (ev :: evs) = textAfter (textAfter question [ev]) evs.
Proof.
  assert (H : forall (v : jsstring) l,
            default question (last (v :: l)) = default v (last l)).
  { intros v [|t ts]; [reflexivity|]. rewrite last_cons_cons.
    destruct (last (t :: ts)) eqn:Hl; [reflexivity|].
    apply last_None in Hl. discriminate. }
  unfold textAfter. destruct ev as [v|v|l]; simpl; try apply H. reflexivity.
Qed.

Lemma run_cons (question : jsstring) (ev : event) (evs : list event) :
  run question (ev :: evs)
  = (fst (run (textAfter question [ev]) evs),
     handle question ev ++ snd (run (textAfter question [ev]) evs)).
Proof.
  cbn [run]. rewrite handle_text.
  destruct (run (textAfter question [ev]) evs). reflexivity.
Qed.

(** X3: over any run of typing, example clicks and submits, the text area
    holds the last text put into it (a submit never clears or changes it,
    an example click replaces it and does not submit), and [onSubmit] is
    called for exactly the submits made while no query is loading and the
    text is not blank, each time with the trimmed text as it then is. *)
Theorem form_keeps_text_and_submits_trimmed (question : jsstring)
    (evs : list event) :
  fst (run question evs) = textAfter question evs
  /\ (forall a, OnSubmit a ∈ snd (run question evs) ->
        exists evs1 evs2,
          evs = evs1 ++ Submit false :: evs2
          /\ a = trim (textAfter question evs1) /\ a <> [])
  /\ (forall evs1 evs2,
        evs = evs1 ++ Submit false :: evs2 ->
        trim (textAfter question evs1) <> [] ->
        OnSubmit (trim (textAfter question evs1)) ∈ snd (run question evs)).
Proof.
  split; [|split].
  - revert question. induction evs as [|ev evs IH]; intros question; [reflexivity|].
    rewrite run_cons, (textAfter_cons question ev evs). simpl. apply IH.
  - revert question. induction evs as [|ev evs IH]; intros question a.
    + simpl. intros Ha. inversion Ha.
    + rewrite run_cons. simpl. rewrite elem_of_app. intros [Ha | Ha].
      * destruct ev as [v|v|l].
        -- apply list_elem_of_singleton in Ha. discriminate.
        -- apply list_elem_of_singleton in Ha. discriminate.
        -- simpl in Ha.
           destruct (ClientFacts.handleSubmit_cases question l)
             as [(Ht & Hl & Heq) | (_ & Heq)]; rewrite Heq in Ha.
           ++ apply elem_of_cons in Ha as [Ha | Ha]; [discriminate|].
              apply list_elem_of_singleton in Ha. injection Ha as ->. subst l.
              exists [], evs. auto.
           ++ apply list_elem_of_singleton in Ha. discriminate.
      * destruct (IH _ _ Ha) as (evs1 & evs2 & -> & -> & Hne).
        exists (ev :: evs1), evs2. split; [reflexivity|].
        rewrite (textAfter_cons question ev evs1). auto.
  - revert question. induction evs as [|ev evs IH]; intros question evs1 evs2 Heq Hne.
    + destruct evs1; discriminate.
    + rewrite run_cons. simpl. apply elem_of_app.
      destruct evs1 as [|ev1 evs1]; simpl in Heq; injection Heq as -> ->.
      * left. simpl.
        destruct (ClientFacts.handleSubmit_cases question false)
          as [(_ & _ & ->) | ([Ht | Hl] & _)].
        -- apply elem_of_cons. right. apply list_elem_of_singleton. reflexivity.
        -- unfold textAfter in Hne. simpl in Hne. congruence.
        -- discriminate.
      * right. rewrite (textAfter_cons question ev1 evs1) in Hne |- *.
        apply (IH _ evs1 evs2 eq_refl Hne).
Qed.

End Form.

(** ** The upload component *)
Section Upload.
Import FileUpload FileDrop.

Lemma handleFileSelect_cases (onUpload : File -> Settled) (file : File) :
  (accepted file = false
   /\ handleFileSelect onUpload file
      = [SetUploadStatus {| type := Some error; message := formatMessage |}])
  \/ (accepted file = true
      /\ handleFileSelect onUpload file
         = SetUploadStatus {| type := None; message := [] |} :: OnUpload file ::
           match onUpload file with
           | Fulfilled =>
               [SetUploadStatus
                  {| type := Some success;
                     message := lit "Successfully uploaded " ++ name file |}]
           | Rejected reason =>
               [SetUploadStatus
                  {| type := Some error;
                     message := messageOr (lit "Upload failed") reason |}]
           | Pending => []
           end).
Proof.
  unfold handleFileSelect, accepted. rewrite <- negb_orb.
  destruct (endsWith (name file) (lit ".sqlite") || endsWith (name file) (lit ".db"));
    [right | left]; split; reflexivity.
Qed.

(** X4: the status the component shows after a file was selected does not
    depend on the status before; it is a success exactly when the name has
    an accepted ending and [onUpload] was fulfilled, and then it names the
    file; it is blank exactly when the name is accepted and [onUpload]
    never settles; a rejection shows the message of the error, or "Upload
    failed" when what was thrown is no Error. *)
Theorem upload_status_after_selection (onUpload : File -> Settled) (file : File)
    (init : UploadStatus) :
  let st := finalStatus init (handleFileSelect onUpload file) in
  (forall init', finalStatus init' (handleFileSelect onUpload file) = st)
  /\ (type st = Some success <-> accepted file = true /\ onUpload file = Fulfilled)
  /\ (type st = Some success ->
      message st = lit "Successfully uploaded " ++ name file)
  /\ (type st = None <-> accepted file = true /\ onUpload file = Pending)
  /\ (forall reason, accepted file = true -> onUpload file = Rejected reason ->
        st = {| type := Some error;
                message := messageOr (lit "Upload failed") reason |}).
Proof.
  intros st. subst st.
  destruct (handleFileSelect_cases onUpload file) as [(Ha & ->) | (Ha & ->)];
    rewrite Ha.
  - simpl. repeat split; try discriminate; try (intros [? ?]; discriminate).
  - destruct (onUpload file) as [|reason|]; simpl;
      repeat split; try discriminate; try congruence;
      try (intros [? ?]; discriminate); auto.
Qed.

(** X5: a drop and a change of the file input look at the first file of
    the list only: [onUpload] is called at most once, on that file and only
    if its name has an accepted ending; the other files are ignored, and a
    missing or empty list uploads nothing. *)
Theorem selection_uploads_first_file_only (onUpload : File -> Settled)
    (files : option (list File)) :
  uploads (handleDrop onUpload files)
  = match files ≫= head with
    | Some file => if accepted file then [file] else []
    | None => []
    end
  /\ uploads (handleFileInputChange onUpload files)
     = uploads (handleDrop onUpload files)
  /\ (length (uploads (handleDrop onUpload files)) <= 1)%nat.
Proof.
  assert (H : uploads (handleFileInputChange onUpload files)
              = match files ≫= head with
                | Some file => if accepted file then [file] else []
                | None => []
                end).
  { unfold handleFileInputChange.
    destruct files as [[|file rest]|]; try reflexivity. simpl.
    destruct (handleFileSelect_cases onUpload file) as [(Ha & ->) | (Ha & ->)];
      rewrite Ha; [reflexivity|].
    destruct (onUpload file); reflexivity. }
  assert (H' : uploads (handleDrop onUpload files)
               = uploads (handleFileInputChange onUpload files)) by reflexivity.
  rewrite H', H. split; [reflexivity|]. split; [reflexivity|].
  destruct (files ≫= head) as [file|]; [|simpl; lia].
  destruct (accepted file); simpl; lia.
Qed.

Lemma step_select_keeps_highlight (st : State) (tr : list FileUpload.effect) :
  dragActive (fold_left FileDrop.step (Select <$> tr) st) = dragActive st.
Proof.
  revert st. induction tr as [|e tr IH]; intros st; [reflexivity|].
  rewrite fmap_cons. simpl. rewrite IH. destruct e; reflexivity.
Qed.

Lemma drop_highlight_off (onUpload : File -> Settled) (st : State)
    (files : option (list File)) :
  dragActive (fold_left FileDrop.step (handleDrop onUpload files) st) = false.
Proof. unfold handleDrop. simpl. apply step_select_keeps_highlight. Qed.

(** X6: a drag event moves only the highlight of the drop zone: the upload
    status stays and nothing is uploaded; the highlight is on after
    dragenter and dragover, off after dragleave, and as before after any
    other type; after a drop it is off, whatever the files are. *)
Theorem drag_moves_only_the_highlight (onUpload : File -> Settled)
    (st : State) (type : jsstring) :
  let st' := fold_left FileDrop.step (handleDrag type) st in
  uploadStatus st' = uploadStatus st
  /\ uploads (handleDrag type) = []
  /\ (dragActive st' = true
      <-> type = lit "dragenter" \/ type = lit "dragover"
          \/ (dragActive st = true /\ type <> lit "dragleave"))
  /\ (forall files,
        dragActive (fold_left FileDrop.step (handleDrop onUpload files) st) = false).
Proof.
  intros st'. subst st'.
  split; [|split; [|split; [|apply drop_highlight_off]]].
  - unfold handleDrag. repeat case_bool_decide; reflexivity.
  - unfold handleDrag. repeat case_bool_decide; reflexivity.
  - unfold handleDrag.
    destruct (decide (type = lit "dragenter")) as [He|He];
      [|destruct (decide (type = lit "dragover")) as [Ho|Ho];
        [|destruct (decide (type = lit "dragleave")) as [Hl|Hl]]].
    + rewrite (bool_decide_eq_true_2 _ He). cbn. split; auto.
    + rewrite (bool_decide_eq_false_2 _ He), (bool_decide_eq_true_2 _ Ho).
      cbn. split; auto.
    + rewrite (bool_decide_eq_false_2 _ He), (bool_decide_eq_false_2 _ Ho),
        (bool_decide_eq_true_2 _ Hl). cbn. split; [discriminate|].
      intros [H | [H | [_ H]]]; exfalso;
        [exact (He H) | exact (Ho H) | exact (H Hl)].
    + rewrite (bool_decide_eq_false_2 _ He), (bool_decide_eq_false_2 _ Ho),
        (bool_decide_eq_false_2 _ Hl). cbn. split.
      * intros H. right. right. split; [exact H | exact Hl].
      * intros [H | [H | [H _]]];
          [exfalso; exact (He H) | exfalso; exact (Ho H) | exact H].
Qed.

Lemma drag_moves_only_the_highlight_status (st : State) (type : jsstring) :
  uploadStatus (fold_left FileDrop.step (handleDrag type) st) = uploadStatus st.
Proof. unfold handleDrag. repeat case_bool_decide; reflexivity. Qed.

Lemma finalStatus_select (onUpload : File -> Settled) (file : File)
    (init init' : UploadStatus) :
  finalStatus init (handleFileSelect onUpload file)
  = finalStatus init' (handleFileSelect onUpload file).
Proof.
  destruct (handleFileSelect_cases onUpload file) as [(_ & ->) | (_ & ->)];
    [reflexivity|].
  destruct (onUpload file); reflexivity.
Qed.

Lemma selected_cons (ev : event) (evs : list event) :
  selected (ev :: evs) = selected [ev] ++ selected evs.
Proof. destruct ev as [type|[[|file rest]|]|[[|file rest]|]]; reflexivity. Qed.

Lemma step_select_status (st : State) (tr : list FileUpload.effect) :
  uploadStatus (fold_left FileDrop.step (Select <$> tr) st)
  = finalStatus (uploadStatus st) tr.
Proof.
  revert st. induction tr as [|e tr IH]; intros st; [reflexivity|].
  rewrite fmap_cons. simpl. rewrite IH. destruct e; reflexivity.
Qed.

Lemma handle_status (onUpload : File -> Settled) (st : State) (ev : event) :
  uploadStatus (fold_left FileDrop.step (FileDrop.handle onUpload ev) st)
  = match selected [ev] with
    | file :: _ => finalStatus (uploadStatus st) (handleFileSelect onUpload file)
    | [] => uploadStatus st
    end.
Proof.
  destruct ev as [type|files|files].
  - apply (drag_moves_only_the_highlight_status st type).
  - cbn [FileDrop.handle]. unfold handleDrop. cbn [fold_left FileDrop.step].
    rewrite step_select_status. destruct files as [[|file rest]|]; reflexivity.
  - cbn [FileDrop.handle]. unfold handleFileInputChange.
    rewrite step_select_status. destruct files as [[|file rest]|]; reflexivity.
Qed.

(** X16: after any run of drags, drops and changes of the file input, the
    upload status is the one of the last event that carried a file, as
    [handleFileSelect] sets it for the first file of that event; drags and
    events without a file leave the status as it is, so without any file
    it is the status from before. *)
Theorem status_follows_last_selection (onUpload : File -> Settled)
    (st : State) (evs : list event) :
  uploadStatus (FileDrop.run onUpload st evs)
  = match last (selected evs) with
    | Some file => finalStatus (uploadStatus st) (handleFileSelect onUpload file)
    | None => uploadStatus st
    end.
Proof.
  revert st. induction evs as [|ev evs IH]; intros st; [reflexivity|].
  change (FileDrop.run onUpload st (ev :: evs))
    with (FileDrop.run onUpload
            (fold_left FileDrop.step (FileDrop.handle onUpload ev) st) evs).
  rewrite IH, handle_status, (selected_cons ev evs).
  destruct (last (selected evs)) as [file|] eqn:Hl.
  - rewrite last_app, Hl. apply finalStatus_select.
  - apply last_None in Hl. rewrite Hl, app_nil_r.
    destruct ev as [type|[[|file rest]|]|[[|file rest]|]]; reflexivity.
Qed.

End Upload.

(** ** The page *)
Section Page.
Import Api ApiClient Home.

Lemma run_app (st : State) (tr tr' : list effect) :
  run st (tr ++ tr') = run (run st tr) tr'.
Proof. apply fold_left_app. Qed.

(** The effects of [handleQuerySubmit] on the state of the page. *)
Lemma run_query_effects (st : State) (tr : list Page.effect) :
  let st' := run st (QueryEffect <$> tr) in
  queryResult st' = Page.queryResultAfter (queryResult st) tr
  /\ schema st' = schema st
  /\ examples st' = examples st
  /\ Loading.schema (loading st') = Loading.schema (loading st)
  /\ Loading.upload (loading st') = Loading.upload (loading st).
Proof.
  revert st. induction tr as [|e tr IH]; intros st; [cbn; auto|].
  rewrite fmap_cons. cbn [run fold_left].
  destruct (IH (step st (QueryEffect e))) as (H1 & H2 & H3 & H4 & H5).
  cbn zeta. unfold run in *. rewrite H1, H2, H3, H4, H5.
  destruct e; cbn; auto.
Qed.

Lemma handleQuerySubmit_trace (api : Instance) (question : jsstring) :
  Page.handleQuerySubmit (executeQuery api) question
  = Page.SetLoadingQuery true :: Page.SetQueryResult None ::
    match outcome (executeQuery api {| request_question := question |}) with
    | Fulfilled result => [Page.SetQueryResult (Some result)]
    | Rejected reason =>
        [Page.ConsoleError reason;
         Page.SetQueryResult (Some (Page.failureResult question reason))]
    end ++ [Page.SetLoadingQuery false].
Proof. reflexivity. Qed.

(** X7: whatever the request does, [handleQuerySubmit] ends with the query
    flag off and a result to show; it leaves the schema, the examples and
    the two other loading flags as they are, calls no other function of the
    API client, and its promise is fulfilled, never rejected. *)
Theorem query_submit_touches_only_the_query (api : Instance)
    (question : jsstring) (st : State) :
  let r := handleQuerySubmit api question in
  let st' := run st (fst r) in
  snd r = Resolved tt
  /\ Loading.query (loading st') = false
  /\ is_Some (queryResult st')
  /\ queryResult st'
     = Page.queryResultAfter (queryResult st)
         (Page.handleQuerySubmit (executeQuery api) question)
  /\ schema st' = schema st
  /\ examples st' = examples st
  /\ Loading.schema (loading st') = Loading.schema (loading st)
  /\ Loading.upload (loading st') = Loading.upload (loading st)
  /\ calls (fst r) = [].
Proof.
  intros r st'. subst r st'. unfold handleQuerySubmit. cbn [fst snd].
  destruct (run_query_effects st (Page.handleQuerySubmit (executeQuery api) question))
    as (H1 & H2 & H3 & H4 & H5).
  cbn zeta in *. rewrite H1, H2, H3, H4, H5.
  rewrite handleQuerySubmit_trace.
  destruct (outcome _); cbn; repeat split; eauto.
Qed.

(** X8: while the request of [handleQuerySubmit] is in flight, that is
    after what the handler does before it awaits [executeQuery], the page
    shows no result and the form submits nothing: its handler calls no
    [onSubmit] and its button is disabled, whatever the text. *)
Theorem no_resubmission_while_in_flight (api : Instance) (question : jsstring)
    (st : State) :
  exists rest,
    fst (handleQuerySubmit api question)
    = QueryEffect (Page.SetLoadingQuery true)
      :: QueryEffect (Page.SetQueryResult None) :: rest
    /\ let st1 := run st [QueryEffect (Page.SetLoadingQuery true);
                          QueryEffect (Page.SetQueryResult None)] in
       resultsDisplay (render st1) = ResultsDisplay.Nothing
       /\ forall text,
            QueryInterface.handleSubmit text (queryInterfaceLoading (render st1))
            = [QueryInterface.PreventDefault]
            /\ QueryInterface.submitDisabled text
                 (queryInterfaceLoading (render st1)) = true.
Proof.
  eexists. split.
  - unfold handleQuerySubmit. cbn [fst]. rewrite handleQuerySubmit_trace.
    rewrite !fmap_cons. reflexivity.
  - cbn. split; [reflexivity|]. intros text.
    unfold QueryInterface.handleSubmit. rewrite andb_false_r. auto.
Qed.

Lemma handleFileUpload_cases (api : Instance) (file : FileUpload.File) :
  (exists reason,
     uploadDatabase api file = Failed reason
     /\ handleFileUpload api file
        = ([SetLoadingUpload true; Await (UploadDatabase file);
            QueryEffect (Page.ConsoleError reason); SetLoadingUpload false],
           Failed reason))
  \/ (exists u reason,
        uploadDatabase api file = Resolved u
        /\ getSchema api (Some (UploadResponse.file_path u)) = Failed reason
        /\ handleFileUpload api file
           = ([SetLoadingUpload true; Await (UploadDatabase file);
               Await (GetSchema (Some (UploadResponse.file_path u)));
               QueryEffect (Page.ConsoleError reason); SetLoadingUpload false],
              Failed reason))
  \/ (exists u s,
        uploadDatabase api file = Resolved u
        /\ getSchema api (Some (UploadResponse.file_path u)) = Resolved s
        /\ handleFileUpload api file
           = ([SetLoadingUpload true; Await (UploadDatabase file);
               Await (GetSchema (Some (UploadResponse.file_path u)));
               SetSchema s; QueryEffect (Page.SetQueryResult None);
               SetLoadingUpload false],
              Resolved tt)).
Proof.
  unfold handleFileUpload.
  destruct (uploadDatabase api file) as [u|reason] eqn:Hu.
  - destruct (getSchema api (Some (UploadResponse.file_path u))) as [s|reason] eqn:Hs.
    + right. right. exists u, s. split; [reflexivity|]. split; [exact Hs|].
      cbn. rewrite Hs. reflexivity.
    + right. left. exists u, reason. split; [reflexivity|]. split; [exact Hs|].
      cbn. rewrite Hs. reflexivity.
  - left. exists reason. split; reflexivity.
Qed.

(** X9: when the upload and the request for the schema of the uploaded
    file both succeed, [handleFileUpload] is fulfilled, the page has the
    new schema and no query result any more (the results view shows
    nothing), the upload flag is off and everything else is as before; the
    two calls are made in that order, the second for the [file_path] of
    the upload response. *)
Theorem upload_refreshes_schema (api : Instance) (file : FileUpload.File)
    (st : State) (u : UploadResponse.t) (s : SchemaResponse.t) :
  uploadDatabase api file = Resolved u ->
  getSchema api (Some (UploadResponse.file_path u)) = Resolved s ->
  let r := handleFileUpload api file in
  let st' := run st (fst r) in
  snd r = Resolved tt
  /\ schema st' = Some s
  /\ queryResult st' = None
  /\ resultsDisplay (render st') = ResultsDisplay.Nothing
  /\ examples st' = examples st
  /\ Loading.upload (loading st') = false
  /\ Loading.query (loading st') = Loading.query (loading st)
  /\ Loading.schema (loading st') = Loading.schema (loading st)
  /\ calls (fst r)
     = [UploadDatabase file; GetSchema (Some (UploadResponse.file_path u))].
Proof.
  intros Hu Hs r st'. subst r st'.
  destruct (handleFileUpload_cases api file)
    as [(reason & Hu' & _) | [(u' & reason & Hu' & Hs' & _) | (u' & s' & Hu' & Hs' & ->)]];
    try congruence.
  assert (u' = u) as -> by congruence.
  assert (s' = s) as -> by congruence.
  cbn. repeat split.
Qed.

(** X10: when [handleFileUpload] fails, it fails with the error of the call
    that failed, after that call and no further one; the schema, the query
    result and the examples are as before, and the upload flag is off. *)
Theorem failed_upload_changes_nothing (api : Instance) (file : FileUpload.File)
    (st : State) (reason : Thrown) :
  snd (handleFileUpload api file) = Failed reason ->
  let st' := run st (fst (handleFileUpload api file)) in
  schema st' = schema st
  /\ queryResult st' = queryResult st
  /\ examples st' = examples st
  /\ Loading.upload (loading st') = false
  /\ Loading.query (loading st') = Loading.query (loading st)
  /\ Loading.schema (loading st') = Loading.schema (loading st)
  /\ ((uploadDatabase api file = Failed reason
       /\ calls (fst (handleFileUpload api file)) = [UploadDatabase file])
      \/ exists u,
           uploadDatabase api file = Resolved u
           /\ getSchema api (Some (UploadResponse.file_path u)) = Failed reason
           /\ calls (fst (handleFileUpload api file))
              = [UploadDatabase file;
                 GetSchema (Some (UploadResponse.file_path u))]).
Proof.
  intros Hr st'. subst st'.
  destruct (handleFileUpload_cases api file)
    as [(reason' & Hu & Heq) | [(u & reason' & Hu & Hs & Heq) | (u & s & Hu & Hs & Heq)]];
    rewrite Heq in Hr |- *; cbn in Hr; try discriminate;
    injection Hr as ->; cbn; repeat split; eauto.
Qed.

Lemma upload_refreshes_schema_witness :
  schema (run initial (fst (handleFileUpload ClientScenario.working
                              ClientScenario.ordersDb)))
  = Some ClientScenario.ordersSchema
  /\ calls (fst (handleFileUpload ClientScenario.working ClientScenario.ordersDb))
     = [UploadDatabase ClientScenario.ordersDb;
        GetSchema (Some (lit "uploads/orders.db"))].
Proof.
  destruct (upload_refreshes_schema ClientScenario.working ClientScenario.ordersDb
              initial ClientScenario.uploaded ClientScenario.ordersSchema
              eq_refl eq_refl)
    as (_ & Hs & _ & _ & _ & _ & _ & _ & Hc).
  split; [exact Hs | exact Hc].
Defined.

Lemma failed_upload_changes_nothing_witness :
  snd (handleFileUpload ClientScenario.unreachable ClientScenario.ordersDb)
  = Failed (ErrorInstance (lit "Network Error"))
  /\ schema (run initial (fst (handleFileUpload ClientScenario.unreachable
                                 ClientScenario.ordersDb)))
     = None.
Proof.
  split; [reflexivity|].
  exact (proj1 (failed_upload_changes_nothing ClientScenario.unreachable
                  ClientScenario.ordersDb initial
                  (ErrorInstance (lit "Network Error")) eq_refl)).
Defined.

Lemma uploadEffects_select (api : Instance) (file : FileUpload.File)
    (s0 : FileUpload.UploadStatus) (rest : list FileUpload.effect) :
  uploadEffects api (FileUpload.SetUploadStatus s0 :: FileUpload.OnUpload file :: rest)
  = fst (handleFileUpload api file) ++ uploadEffects api rest.
Proof. reflexivity. Qed.

(** X11: the upload component over the page's [handleFileUpload].  The
    status is a success exactly when the name of the file is accepted and
    both the upload and the request for the new schema succeed, and then
    the page has that schema and no query result; after an error status the
    page has the schema and the query result it had; for a name that is not
    accepted the page does nothing, so no request is made; and the status
    is never left blank. *)
Theorem upload_flow (api : Instance) (file : FileUpload.File)
    (status0 : FileUpload.UploadStatus) (st : State) :
  let tr := FileUpload.handleFileSelect (onUpload api) file in
  let status := FileUpload.finalStatus status0 tr in
  let st' := run st (uploadEffects api tr) in
  (FileUpload.type status = Some FileUpload.success
   <-> FileDrop.accepted file = true
       /\ exists u s,
            uploadDatabase api file = Resolved u
            /\ getSchema api (Some (UploadResponse.file_path u)) = Resolved s)
  /\ (FileUpload.type status = Some FileUpload.success ->
      exists u s,
        uploadDatabase api file = Resolved u
        /\ getSchema api (Some (UploadResponse.file_path u)) = Resolved s
        /\ schema st' = Some s /\ queryResult st' = None)
  /\ (FileUpload.type status = Some FileUpload.error ->
      schema st' = schema st /\ queryResult st' = queryResult st)
  /\ (FileDrop.accepted file = false -> uploadEffects api tr = [])
  /\ FileUpload.type status <> None.
Proof.
  intros tr status st'. subst tr status st'.
  destruct (handleFileSelect_cases (onUpload api) file) as [(Ha & ->) | (Ha & ->)];
    rewrite Ha.
  - cbn. repeat split; try discriminate; try (intros [? ?]; discriminate); auto.
  - rewrite uploadEffects_select. unfold onUpload.
    destruct (handleFileUpload_cases api file)
      as [(reason & Hu & Heq) | [(u & reason & Hu & Hs & Heq) | (u & s & Hu & Hs & Heq)]];
      rewrite Heq, Hu; cbn;
      (split; [|split; [|split; [|split]]]); try discriminate.
    + split; [discriminate|]. intros (_ & u & s & Hu' & _). discriminate.
    + auto.
    + split; [discriminate|].
      intros (_ & u' & s & Hu' & Hs'). injection Hu' as <-. congruence.
    + auto.
    + split; eauto.
    + eauto 10.
Qed.

Lemma loadInitialData_cases (api : Instance) :
  (exists reason,
     getSchema api None = Failed reason
     /\ loadInitialData api
        = ([SetLoadingSchema true; Await (GetSchema None);
            QueryEffect (Page.ConsoleError reason); SetLoadingSchema false],
           Resolved tt))
  \/ (exists s reason,
        getSchema api None = Resolved s /\ getExamples api = Failed reason
        /\ loadInitialData api
           = ([SetLoadingSchema true; Await (GetSchema None); SetSchema s;
               Await GetExamples; QueryEffect (Page.ConsoleError reason);
               SetLoadingSchema false],
              Resolved tt))
  \/ (exists s ex,
        getSchema api None = Resolved s /\ getExamples api = Resolved ex
        /\ loadInitialData api
           = ([SetLoadingSchema true; Await (GetSchema None); SetSchema s;
               Await GetExamples;
               SetExamples (Example.question <$> ExampleResponse.examples ex);
               SetLoadingSchema false],
              Resolved tt)).
Proof.
  unfold loadInitialData.
  destruct (getSchema api None) as [s|reason] eqn:Hs.
  - destruct (getExamples api) as [ex|reason] eqn:He.
    + right. right. exists s, ex. auto.
    + right. left. exists s, reason. auto.
  - left. exists reason. auto.
Qed.

(** X12: [loadInitialData] never rejects and always ends with the schema
    flag off, so the schema panel does not stay on its skeleton; it leaves
    the query result and the other flags alone.  When the schema request
    fails, the examples are not requested and schema and examples stay as
    they were; when it succeeds the page has the schema even if the request
    for the examples fails, and the examples are the questions of the
    response, in order, when it does not. *)
Theorem initial_load (api : Instance) (st : State) :
  let r := loadInitialData api in
  let st' := run st (fst r) in
  snd r = Resolved tt
  /\ Loading.schema (loading st') = false
  /\ schemaDisplay (render st') <> SchemaDisplay.LoadingSkeleton
  /\ queryResult st' = queryResult st
  /\ Loading.query (loading st') = Loading.query (loading st)
  /\ Loading.upload (loading st') = Loading.upload (loading st)
  /\ (forall reason, getSchema api None = Failed reason ->
        calls (fst r) = [GetSchema None]
        /\ schema st' = schema st /\ examples st' = examples st)
  /\ (forall s, getSchema api None = Resolved s ->
        calls (fst r) = [GetSchema None; GetExamples]
        /\ schema st' = Some s
        /\ (forall reason, getExamples api = Failed reason ->
              examples st' = examples st)
        /\ (forall ex, getExamples api = Resolved ex ->
              examples st'
              = Example.question <$> ExampleResponse.examples ex)).
Proof.
  intros r st'. subst r st'.
  assert (Hview : forall st0 : State,
            Loading.schema (loading st0) = false ->
            schemaDisplay (render st0) <> SchemaDisplay.LoadingSkeleton).
  { intros st0 H. cbn. rewrite H.
    destruct (schema st0) as [s0|]; [|discriminate]. cbn.
    destruct (_ =? _)%Z; discriminate. }
  destruct (loadInitialData_cases api)
    as [(reason & Hs & ->) | [(s & reason & Hs & He & ->) | (s & ex & Hs & He & ->)]];
    (split; [reflexivity|]); (split; [reflexivity|]);
    (split; [apply Hview; reflexivity|]);
    cbn; rewrite Hs; repeat split; try discriminate; try congruence;
    intros ? [= <-]; repeat split; congruence.
Qed.

End Page.

(** ** The table of results *)
Section Table.
Import Api ResultsDisplay ResultsTable.


Lemma objectKeys_None (v : Json) : objectKeys v = None <-> v = JNull.
Proof. destruct v; simpl; split; congruence. Qed.

Lemma keys_values_length (v : Json) (keys : list jsstring) (values : list Json) :
  objectKeys v = Some keys -> objectValues v = Some values ->
  length keys = length values.
Proof.
  destruct v; simpl; intros [= <-] [= <-]; try reflexivity;
    rewrite !length_fmap, ?length_seq; reflexivity.
Qed.




Lemma bodyRows_lookup (rows : list Json) (lines : list (list Cell)) :
  bodyRows rows = Some lines ->
  length lines = length rows
  /\ forall i row, rows !! i = Some row ->
       exists values, objectValues row = Some values
                      /\ lines !! i = Some (cell <$> values).
Proof.
  revert lines. induction rows as [|row rows IH]; intros lines; simpl.
  - intros [= <-]. split; [reflexivity|]. intros i row H. inversion H.
  - destruct (objectValues row) as [values|] eqn:Hv; [|discriminate].
    destruct (bodyRows rows) as [rest|]; [|discriminate].
    intros [= <-]. destruct (IH rest eq_refl) as (Hlen & Hrows).
    split; [simpl; congruence|].
    intros [|i] row' Hi; simpl in Hi.
    + injection Hi as <-. exists values. auto.
    + apply Hrows. exact Hi.
Qed.

(** X14: when the table renders, its header is the keys of the first row
    and it has one line for each row, in order; the line of a row has one
    cell for each value of that row, as many as that row has keys, whatever
    the header is, so the cells stand under the header only for rows with
    the keys of the first row. *)
Theorem table_lines_follow_rows (rows : list Json) (t : Table) :
  renderTable rows = Some t ->
  length (body t) = length rows
  /\ (exists first, rows !! 0 = Some first /\ objectKeys first = Some (header t))
  /\ forall i row, rows !! i = Some row ->
       exists keys values,
         objectKeys row = Some keys /\ objectValues row = Some values
         /\ length keys = length values
         /\ body t !! i = Some (cell <$> values).
Proof.
  unfold renderTable. destruct rows as [|first rest]; [discriminate|].
  destruct (objectKeys first) as [keys|] eqn:Hk; [|discriminate].
  destruct (bodyRows (first :: rest)) as [lines|] eqn:Hb; [|discriminate].
  intros [= <-]. simpl.
  destruct (bodyRows_lookup _ _ Hb) as (Hlen & Hrows).
  split; [exact Hlen|]. split; [exists first; auto|].
  intros i row Hi. destruct (Hrows i row Hi) as (values & Hv & Hl).
  destruct (objectKeys row) as [keys'|] eqn:Hk'.
  - exists keys', values. repeat split; auto.
    apply (keys_values_length row); assumption.
  - apply objectKeys_None in Hk'. subst row. discriminate.
Qed.

Lemma table_lines_follow_rows_witness :
  renderTable ClientScenario.orderRows = Some ClientScenario.orderTable
  /\ length (body ClientScenario.orderTable) = length ClientScenario.orderRows.
Proof.
  split; [reflexivity|].
  exact (proj1 (table_lines_follow_rows ClientScenario.orderRows
                  ClientScenario.orderTable eq_refl)).
Defined.

End Table.

(** ** The schema panel *)
Section Schema.
Import ApiClient SchemaDisplay.

Lemma columnRow_constraints (column : ColumnInfo.t) :
  (PK ∈ constraints (columnRow column) <-> ColumnInfo.primary_key column = true)
  /\ (NOT_NULL ∈ constraints (columnRow column)
      <-> ColumnInfo.nullable column = false)
  /\ (forall v, DEFAULT v ∈ constraints (columnRow column)
                <-> ColumnInfo.default_value column = Some v /\ v <> []).
Proof.
  unfold columnRow. simpl.
  destruct (ColumnInfo.primary_key column), (ColumnInfo.nullable column),
    (ColumnInfo.default_value column) as [[|c d]|]; simpl;
    (split; [|split; [|intros v]]); split;
    rewrite ?elem_of_cons, ?elem_of_nil; intuition (try congruence);
    try discriminate; try (injection H as <-; auto; discriminate).
Qed.

(** X15: the schema panel shows its skeleton exactly while loading, and
    otherwise the notice that no schema is there exactly when the schema is
    null or its [total_tables] is 0, whatever [tables] holds.  When it
    shows the schema, the badge is [total_tables] and there is one box for
    each entry of [tables], in order, under the name of the table, with one
    row for each column, in order; a row has the key icon and PK for a
    primary key, NOT NULL for a column that is not nullable, and DEFAULT
    for a default value that is not the empty string. *)
Theorem schema_panel_modes (schema : option SchemaResponse.t) (loading : bool) :
  (SchemaDisplay schema loading = LoadingSkeleton <-> loading = true)
  /\ (SchemaDisplay schema loading = NoSchema
      <-> loading = false
          /\ (schema = None
              \/ exists s, schema = Some s /\ SchemaResponse.total_tables s = 0%Z))
  /\ forall total path cards,
       SchemaDisplay schema loading = Schema total path cards ->
       exists s,
         schema = Some s /\ loading = false
         /\ total = SchemaResponse.total_tables s /\ total <> 0%Z
         /\ Forall2
              (fun entry card =>
                 tableName card = TableInfo.name (snd entry)
                 /\ rowCount card = TableInfo.row_count (snd entry)
                 /\ Forall2
                      (fun column row =>
                         columnName row = ColumnInfo.name column
                         /\ columnType row = ColumnInfo.type column
                         /\ keyIcon row = ColumnInfo.primary_key column
                         /\ (PK ∈ constraints row
                             <-> ColumnInfo.primary_key column = true)
                         /\ (NOT_NULL ∈ constraints row
                             <-> ColumnInfo.nullable column = false)
                         /\ (forall v, DEFAULT v ∈ constraints row
                                       <-> ColumnInfo.default_value column = Some v
                                           /\ v <> []))
                      (TableInfo.columns (snd entry)) (columnRows card))
              (SchemaResponse.tables s) cards.
Proof.
  unfold SchemaDisplay. destruct loading.
  - split; [split; auto|]. split; [split; [discriminate | intros [H _]; discriminate]|].
    discriminate.
  - destruct schema as [s|].
    + destruct (SchemaResponse.total_tables s =? 0)%Z eqn:Ht.
      * apply Z.eqb_eq in Ht.
        split; [split; discriminate|]. split; [split; eauto|]. discriminate.
      * apply Z.eqb_neq in Ht.
        split; [split; discriminate|]. split.
        -- split; [discriminate|].
           intros (_ & [H | (s' & [= <-] & H)]); [discriminate | contradiction].
        -- intros total path cards [= <- _ <-].
           exists s. split; [reflexivity|]. split; [reflexivity|].
           split; [reflexivity|]. split; [exact Ht|].
           rewrite <- list_fmap_compose. apply Forall2_fmap_r, Forall_Forall2_diag.
           apply Forall_forall. intros entry _. cbn.
           split; [reflexivity|]. split; [reflexivity|].
           apply Forall2_fmap_r, Forall_Forall2_diag, Forall_forall.
           intros column _. unfold compose.
           split; [reflexivity|]. split; [reflexivity|]. split; [reflexivity|].
           apply columnRow_constraints.
    + split; [split; discriminate|]. split; [split; auto|]. discriminate.
Qed.

End Schema.

End ClientExtras.

(** * Properties of the results view on the screen *)
Module ScreenFacts.
Import Js Api Page ResultsDisplay ResultsScreen.





End ScreenFacts.
